(** * mger-smibot: the JSON document store, the access guard and the
      event conversation, embedded from [database.py] and [bot.py]. *)

From Stdlib Require Import ZArith String Ascii List Bool Lia.
From stdpp Require Import base option list strings gmap pretty.

Set Warnings "-register-all".
Local Open Scope Z_scope.

(** ** Values of the documents

    What [json.load] returns and [json.dump] accepts.  A dict keeps its
    keys in insertion order, as a Python dict does.  Text is held as its
    UTF-8 bytes; numbers are ints, the store never computes with them. *)

Inductive json : Type :=
| JNull
| JBool (b : bool)
| JInt (n : Z)
| JStr (s : string)
| JList (l : list json)
| JDict (kv : list (string * json)).

(** The exceptions the store's methods can leave through. *)
Inductive exn : Type :=
| KeyError (k : string)
| TypeError
| AttributeError.

Inductive result (A : Type) : Type :=
| Ok (a : A)
| Raise (e : exn).
Arguments Ok {A} a.
Arguments Raise {A} e.

(** ** Python primitives on these values *)

Module Py.

(** [str(n)] for an int. *)
Definition str (n : Z) : string := pretty n.

(** [d.get(k)] on the items of a dict. *)
Fixpoint dict_get (k : string) (kv : list (string * json)) : option json :=
  match kv with
  | [] => None
  | (k', v) :: rest => if String.eqb k' k then Some v else dict_get k rest
  end.

(** [d[k] = v] on the items of a dict: an existing key keeps its place. *)
Fixpoint dict_set (k : string) (v : json) (kv : list (string * json))
  : list (string * json) :=
  match kv with
  | [] => [(k, v)]
  | (k', v') :: rest =>
      if String.eqb k' k then (k', v) :: rest else (k', v') :: dict_set k v rest
  end.

(** [q in s] for two strings; on UTF-8 text the bytes of [q] occur in
    those of [s] exactly when its characters do. *)
Fixpoint str_in (q s : string) : bool :=
  String.prefix q s ||
  match s with
  | EmptyString => false
  | String _ s' => str_in q s'
  end.

(** [j == s] where [s] is a str: only an equal str compares equal. *)
Definition eq_str (s : string) (j : json) : bool :=
  match j with
  | JStr t => String.eqb t s
  | _ => false
  end.

(** [bool(j)]. *)
Definition truthy (j : json) : bool :=
  match j with
  | JNull => false
  | JBool b => b
  | JInt n => negb (n =? 0)
  | JStr s => negb (String.eqb s "")
  | JList l => match l with [] => false | _ => true end
  | JDict kv => match kv with [] => false | _ => true end
  end.

(** [j[k]] with a str key. *)
Definition getitem (j : json) (k : string) : result json :=
  match j with
  | JDict kv =>
      match dict_get k kv with
      | Some v => Ok v
      | None => Raise (KeyError k)
      end
  | _ => Raise TypeError
  end.

(** [j[k] = v] with a str key; only reached on dicts here. *)
Definition setitem (j : json) (k : string) (v : json) : result json :=
  match j with
  | JDict kv => Ok (JDict (dict_set k v kv))
  | _ => Raise TypeError
  end.

(** [s in j] where [s] is a str. *)
Definition contains (j : json) (s : string) : result bool :=
  match j with
  | JList l => Ok (existsb (eq_str s) l)
  | JDict kv => Ok (existsb (fun p => String.eqb (fst p) s) kv)
  | JStr t => Ok (str_in s t)
  | _ => Raise TypeError
  end.

(** [len(j)].  For a str this counts bytes; both callers go on to
    raise on a str that is not empty. *)
Definition len (j : json) : result nat :=
  match j with
  | JList l => Ok (length l)
  | JDict kv => Ok (length kv)
  | JStr t => Ok (String.length t)
  | _ => Raise TypeError
  end.

(** [j.append(x)]: lists only. *)
Definition append (j x : json) : result json :=
  match j with
  | JList l => Ok (JList (l ++ [x]))
  | _ => Raise AttributeError
  end.

(** The elements a [for] loop over [j] visits: the items of a list, the
    keys of a dict, the characters of a str (here one per byte: both
    loops raise on the first of them). *)
Definition iter (j : json) : result (list json) :=
  match j with
  | JList l => Ok l
  | JDict kv => Ok (map (fun p => JStr (fst p)) kv)
  | JStr t => Ok (map (fun c => JStr (String c EmptyString)) (list_ascii_of_string t))
  | _ => Raise TypeError
  end.

(** [[x for x in l if keep x]] where [keep] may raise. *)
Fixpoint comprehension (keep : json -> result bool) (l : list json)
  : result (list json) :=
  match l with
  | [] => Ok []
  | x :: rest =>
      match keep x with
      | Raise e => Raise e
      | Ok b =>
          match comprehension keep rest with
          | Raise e => Raise e
          | Ok kept => Ok (if b then x :: kept else kept)
          end
      end
  end.

(** [m.get(k, "")]: a method of dicts only. *)
Definition get_or_empty (m : json) (k : string) : result json :=
  match m with
  | JDict kv => Ok (default (JStr "") (dict_get k kv))
  | _ => Raise AttributeError
  end.

End Py.

(** [str.lower] is taken as an interface: Unicode case mapping is not
    spelled out, only that the empty string maps to itself. *)
Class StrLower : Type := {
  str_lower : string -> string;
  str_lower_empty : str_lower "" = ""
}.

(** ** State and exceptions *)

Definition M (S A : Type) : Type := S -> result A * S.

Global Instance M_ret {S} : MRet (M S) := fun A a s => (Ok a, s).

Global Instance M_bind {S} : MBind (M S) := fun A B f m s =>
  match m s with
  | (Ok a, s') => f a s'
  | (Raise e, s') => (Raise e, s')
  end.

Definition lift {S A} (r : result A) : M S A := fun s => (r, s).

(** ** database.py *)

(** What a path holds: text [json.load] rejects, or the value it parses
    to.  A path absent from the map is a missing file. *)
Inductive content : Type :=
| Garbage
| Parsed (j : json).

Record JSONDatabase : Type := {
  fs : gmap string content;
  cache : gmap string json
}.

Definition whitelist_file : string := "data/whitelist.json".
Definition events_file : string := "data/events.json".
Definition media_file : string := "data/media.json".

Definition defaults : list (string * json) :=
  [ (whitelist_file, JDict [("users", JList []); ("admins", JList [])]);
    (events_file, JDict [("events", JList [])]);
    (media_file, JDict [("media", JList [])]) ].

(** [JSONDatabase._init_files]: a default document for each file that
    does not exist. *)
Definition _init_files (disk : gmap string content) : gmap string content :=
  foldl (fun d p => match d !! fst p with
                    | None => <[fst p := Parsed (snd p)]> d
                    | Some _ => d
                    end) disk defaults.

(** [JSONDatabase()] over the files found on disk. *)
Definition init (disk : gmap string content) : JSONDatabase :=
  {| fs := _init_files disk; cache := ∅ |}.

(** [JSONDatabase._load_json]: [{}] when the file is missing or is not
    JSON. *)
Definition _load_json (filepath : string) : M JSONDatabase json := fun s =>
  match fs s !! filepath with
  | Some (Parsed j) => (Ok j, s)
  | Some Garbage | None => (Ok (JDict []), s)
  end.

(** [JSONDatabase._save_json]: the document replaces what the file held.
    The write is taken to go through: a failure of [open] or of
    [json.dump] on the way (disk, permissions, encoding), which would
    leave a cut-off file, is outside this model. *)
Definition _save_json (filepath : string) (data : json) : M JSONDatabase unit :=
  fun s => (Ok tt, {| fs := <[filepath := Parsed data]> (fs s); cache := cache s |}).

(** [self.cache]: membership and read, item assignment, [pop(key, None)]. *)
Definition cache_get (key : string) : M JSONDatabase (option json) :=
  fun s => (Ok (cache s !! key), s).

Definition cache_set (key : string) (v : json) : M JSONDatabase unit :=
  fun s => (Ok tt, {| fs := fs s; cache := <[key := v]> (cache s) |}).

Definition cache_pop (key : string) : M JSONDatabase unit :=
  fun s => (Ok tt, {| fs := fs s; cache := delete key (cache s) |}).

Definition add_to_whitelist (username : string) : M JSONDatabase bool :=
  data ← _load_json whitelist_file;
  users ← lift (Py.getitem data "users");
  present ← lift (Py.contains users username);
  if negb present then
    users' ← lift (Py.append users (JStr username));
    data' ← lift (Py.setitem data "users" users');
    _save_json whitelist_file data';;
    cache_pop "whitelist";;
    mret true
  else mret false.

Definition is_whitelisted (username : string) : M JSONDatabase json :=
  let cache_key := "whitelist_" +:+ username in
  hit ← cache_get cache_key;
  match hit with
  | Some v => mret v
  | None =>
      data ← _load_json whitelist_file;
      users ← lift (Py.getitem data "users");
      in_users ← lift (Py.contains users username);
      is_whitelisted ←
        (if in_users : bool then mret true
         else admins ← lift (Py.getitem data "admins");
              lift (Py.contains admins username));
      cache_set cache_key (JBool is_whitelisted);;
      mret (JBool is_whitelisted)
  end.

(** [now] is the reading of [datetime.now().isoformat()]. *)
Definition add_event (event_data : list (string * json)) (now : string)
  : M JSONDatabase string :=
  data ← _load_json events_file;
  events ← lift (Py.getitem data "events");
  n ← lift (Py.len events);
  let event_id := Py.str (Z.of_nat n + 1) in
  let event_data := Py.dict_set "id" (JStr event_id) event_data in
  let event_data := Py.dict_set "created_at" (JStr now) event_data in
  events' ← lift (Py.append events (JDict event_data));
  data' ← lift (Py.setitem data "events" events');
  _save_json events_file data';;
  cache_pop "events";;
  mret event_id.

Definition get_events : M JSONDatabase json :=
  hit ← cache_get "events";
  match hit with
  | Some v => mret v
  | None =>
      data ← _load_json events_file;
      events ← lift (Py.getitem data "events");
      cache_set "events" events;;
      mret events
  end.

Definition delete_event (event_id : string) : M JSONDatabase bool :=
  data ← _load_json events_file;
  events ← lift (Py.getitem data "events");
  initial_len ← lift (Py.len events);
  items ← lift (Py.iter events);
  kept ← lift (Py.comprehension
                 (fun e => match Py.getitem e "id" with
                           | Ok v => Ok (negb (Py.eq_str event_id v))
                           | Raise x => Raise x
                           end) items);
  data' ← lift (Py.setitem data "events" (JList kept));
  if (length kept <? initial_len)%nat then
    _save_json events_file data';;
    cache_pop "events";;
    mret true
  else mret false.

Definition add_media (media_data : list (string * json)) : M JSONDatabase unit :=
  data ← _load_json media_file;
  media ← lift (Py.getitem data "media");
  media' ← lift (Py.append media (JDict media_data));
  data' ← lift (Py.setitem data "media" media');
  _save_json media_file data';;
  cache_pop "media".

(** The test of the comprehension in [search_media]; [or] does not look
    at the description once the name matches. *)
Definition media_matches `{StrLower} (query : string) (media : json) : result bool :=
  let field k :=
    match Py.get_or_empty media k with
    | Ok (JStr s) => Ok (Py.str_in query (str_lower s))
    | Ok _ => Raise AttributeError
    | Raise e => Raise e
    end in
  match field "name" with
  | Ok true => Ok true
  | Ok false => field "description"
  | Raise e => Raise e
  end.

Definition search_media `{StrLower} (query : string) : M JSONDatabase (list json) :=
  hit ← cache_get "media";
  (match hit with
   | None =>
       data ← _load_json media_file;
       media ← lift (Py.getitem data "media");
       cache_set "media" media
   | Some _ => mret tt
   end);;
  cached ← cache_get "media";
  let query := str_lower query in
  items ← lift (Py.iter (default JNull cached));
  lift (Py.comprehension (media_matches query) items).

(** ** bot.py *)

Inductive State : Type :=
| PostStates_waiting_for_topic
| PostStates_waiting_for_style
| EventStates_waiting_for_title
| EventStates_waiting_for_description
| EventStates_waiting_for_date
| MediaStates_waiting_for_search.

(** What the FSM storage keeps per conversation: the state and the data
    collected so far. *)
Record Session : Type := {
  current_state : option State;
  scratch : list (string * json)
}.

Definition no_session : Session := {| current_state := None; scratch := [] |}.

Record User : Type := {
  user_id : Z;
  username : option string
}.

Record Message : Type := {
  chat_id : Z;
  from_user : option User;
  text : option string
}.

(** The process: the store, the FSM storage keyed by (chat, user), and
    the texts sent so far, each with the chat it went to. *)
Record World : Type := {
  db : JSONDatabase;
  storage : gmap (Z * Z) Session;
  sent : list (Z * string)
}.

(** An [FSMContext] is the storage key the dispatcher binds for the
    event.  [set_state] and [update_data] each keep the other half of
    the session, [get_data] reads a copy, [clear] resets both halves. *)
Definition FSMContext : Type := (Z * Z)%type.

Definition session_of (state : FSMContext) (w : World) : Session :=
  default no_session (storage w !! state).

Definition with_db {A} (m : M JSONDatabase A) : M World A := fun w =>
  let '(r, d) := m (db w) in
  (r, {| db := d; storage := storage w; sent := sent w |}).

Definition put_session (state : FSMContext) (x : Session) : M World unit :=
  fun w => (Ok tt, {| db := db w; storage := <[state := x]> (storage w); sent := sent w |}).

Definition set_state (state : FSMContext) (st : State) : M World unit := fun w =>
  put_session state
    {| current_state := Some st; scratch := scratch (session_of state w) |} w.

Definition update_data (state : FSMContext) (k : string) (v : json) : M World unit :=
  fun w =>
  put_session state
    {| current_state := current_state (session_of state w);
       scratch := Py.dict_set k v (scratch (session_of state w)) |} w.

Definition get_data (state : FSMContext) : M World (list (string * json)) :=
  fun w => (Ok (scratch (session_of state w)), w).

Definition clear (state : FSMContext) : M World unit :=
  put_session state no_session.

Definition answer (message : Message) (reply : string) : M World unit := fun w =>
  (Ok tt, {| db := db w; storage := storage w;
             sent := sent w ++ [(chat_id message, reply)] |}).

(** [message.text] as a Python value. *)
Definition text_value (message : Message) : json :=
  match text message with
  | Some t => JStr t
  | None => JNull
  end.

(** [user.username or str(user.id)]. *)
Definition username_or_id (u : User) : string :=
  match username u with
  | Some name => if String.eqb name "" then Py.str (user_id u) else name
  | None => Py.str (user_id u)
  end.

Definition ACCESS_DENIED : string :=
  "⛔ У вас нет доступа к боту. Обратитесь к администратору.".

Definition check_access_middleware (ADMIN_IDS : list Z)
    (message : Message) (handler : M World unit) : M World unit :=
  match from_user message with
  | Some user =>
      let username := username_or_id user in
      if bool_decide (user_id user ∈ ADMIN_IDS) then handler
      else
        allowed ← with_db (is_whitelisted username);
        if Py.truthy allowed then handler
        else answer message ACCESS_DENIED
  | None => handler
  end.

Definition start_add_event (message : Message) (state : FSMContext) : M World unit :=
  answer message "📝 Введите название мероприятия:";;
  set_state state EventStates_waiting_for_title.

Definition process_event_title (message : Message) (state : FSMContext)
  : M World unit :=
  update_data state "title" (text_value message);;
  answer message "📄 Введите описание мероприятия:";;
  set_state state EventStates_waiting_for_description.

Definition process_event_description (message : Message) (state : FSMContext)
  : M World unit :=
  update_data state "description" (text_value message);;
  answer message "📅 Введите дату мероприятия (в формате ДД.ММ.ГГГГ):";;
  set_state state EventStates_waiting_for_date.

Definition process_event_date (now : string) (message : Message)
    (state : FSMContext) : M World unit :=
  event_data ← get_data state;
  let event_data := Py.dict_set "date" (text_value message) event_data in
  match from_user message with
  | None => lift (Raise AttributeError)
  | Some user =>
      let event_data :=
        Py.dict_set "creator" (JStr (username_or_id user)) event_data in
      event_id ← with_db (add_event event_data now);
      answer message ("✅ Мероприятие добавлено! ID: " +:+ event_id);;
      clear state
  end.

(** ** Histories of the store

    Every call a handler can make on the one [db] object, and the states
    a process reaches by making them. *)

Inductive call : Type :=
| Add_to_whitelist (username : string)
| Is_whitelisted (username : string)
| Add_event (event_data : list (string * json)) (now : string)
| Get_events
| Delete_event (event_id : string)
| Add_media (media_data : list (string * json))
| Search_media (query : string).

Definition exec `{StrLower} (c : call) (s : JSONDatabase) : JSONDatabase :=
  match c with
  | Add_to_whitelist u => snd (add_to_whitelist u s)
  | Is_whitelisted u => snd (is_whitelisted u s)
  | Add_event e now => snd (add_event e now s)
  | Get_events => snd (get_events s)
  | Delete_event i => snd (delete_event i s)
  | Add_media m => snd (add_media m s)
  | Search_media q => snd (search_media q s)
  end.

Definition run `{StrLower} (calls : list call) (s : JSONDatabase) : JSONDatabase :=
  foldl (fun s c => exec c s) s calls.

(** The list a document keeps under its one top-level field, when the
    file holds such a document. *)
Definition stored (path key : string) (s : JSONDatabase) : option (list json) :=
  match fs s !! path with
  | Some (Parsed (JDict kv)) =>
      match Py.dict_get key kv with
      | Some (JList l) => Some l
      | _ => None
      end
  | _ => None
  end.

Definition stored_users : JSONDatabase -> option (list json) :=
  stored whitelist_file "users".
Definition stored_admins : JSONDatabase -> option (list json) :=
  stored whitelist_file "admins".
Definition stored_events : JSONDatabase -> option (list json) :=
  stored events_file "events".
Definition stored_media : JSONDatabase -> option (list json) :=
  stored media_file "media".

(** A cached collection, when there is one, is the one on disk. *)
Definition coherent (s : JSONDatabase) : Prop :=
  (forall v, cache s !! "events" = Some v ->
     exists kv, fs s !! events_file = Some (Parsed (JDict kv)) /\
                Py.dict_get "events" kv = Some v) /\
  (forall v, cache s !! "media" = Some v ->
     exists kv, fs s !! media_file = Some (Parsed (JDict kv)) /\
                Py.dict_get "media" kv = Some v).

(** [e["id"] == event_id] for a stored record. *)
Definition carries (event_id : string) (e : json) : bool :=
  match Py.getitem e "id" with
  | Ok v => Py.eq_str event_id v
  | Raise _ => false
  end.

(** A stored event is a dict with an id. *)
Definition is_event (e : json) : Prop :=
  exists kv v, e = JDict kv /\ Py.dict_get "id" kv = Some v.

(** A stored media entry is a dict whose name and description, where
    present, are strings. *)
Definition is_media (m : json) : Prop :=
  exists kv, m = JDict kv /\
    (forall v, Py.dict_get "name" kv = Some v -> exists t, v = JStr t) /\
    (forall v, Py.dict_get "description" kv = Some v -> exists t, v = JStr t).

(** [k] read from a media entry as text, [""] when absent. *)
Definition field (k : string) (m : json) : string :=
  match Py.get_or_empty m k with
  | Ok (JStr s) => s
  | _ => ""
  end.

(** ASCII case folding, an instance of [str.lower] to run examples with. *)
Definition ascii_lower (c : ascii) : ascii :=
  let n := nat_of_ascii c in
  if ((65 <=? n) && (n <=? 90))%nat then ascii_of_nat (n + 32) else c.

Fixpoint lower_ascii (s : string) : string :=
  match s with
  | EmptyString => EmptyString
  | String c s' => String (ascii_lower c) (lower_ascii s')
  end.

Definition AsciiLower : StrLower :=
  {| str_lower := lower_ascii; str_lower_empty := eq_refl |}.

(** The record [add_event] stores when the collection holds [n] records. *)
Definition stamped (event_data : list (string * json)) (now : string) (n : nat)
  : list (string * json) :=
  Py.dict_set "created_at" (JStr now)
    (Py.dict_set "id" (JStr (Py.str (Z.of_nat n + 1))) event_data).

(** The key [is_whitelisted] caches a user's answer under. *)
Definition answer_key (username : string) : string := "whitelist_" +:+ username.

(** The two stores a call can leave behind: every call either leaves the
    store as it was, rewrites one document and drops one cache key, or
    fills one cache key. *)
Definition rewrite_doc (path key popped : string) (kv : list (string * json))
    (l : list json) (s : JSONDatabase) : JSONDatabase :=
  {| fs := <[path := Parsed (JDict (Py.dict_set key (JList l) kv))]> (fs s);
     cache := delete popped (cache s) |}.

Definition fill_cache (key : string) (v : json) (s : JSONDatabase) : JSONDatabase :=
  {| fs := fs s; cache := <[key := v]> (cache s) |}.

Inductive transition (s : JSONDatabase) : JSONDatabase -> Prop :=
| t_stay : transition s s
| t_users kv us u :
    fs s !! whitelist_file = Some (Parsed (JDict kv)) ->
    Py.dict_get "users" kv = Some (JList us) ->
    JStr u ∉ us ->
    transition s (rewrite_doc whitelist_file "users" "whitelist" kv (us ++ [JStr u]) s)
| t_answer u b :
    cache s !! answer_key u = None ->
    (b = false -> forall ads, stored_admins s = Some ads -> JStr u ∉ ads) ->
    transition s (fill_cache (answer_key u) (JBool b) s)
| t_events kv evs evs' :
    fs s !! events_file = Some (Parsed (JDict kv)) ->
    Py.dict_get "events" kv = Some (JList evs) ->
    (Forall is_event evs -> Forall is_event evs') ->
    transition s (rewrite_doc events_file "events" "events" kv evs' s)
| t_media kv ms ms' :
    fs s !! media_file = Some (Parsed (JDict kv)) ->
    Py.dict_get "media" kv = Some (JList ms) ->
    transition s (rewrite_doc media_file "media" "media" kv ms' s)
| t_load_events kv v :
    cache s !! "events" = None ->
    fs s !! events_file = Some (Parsed (JDict kv)) ->
    Py.dict_get "events" kv = Some v ->
    transition s (fill_cache "events" v s)
| t_load_media kv v :
    cache s !! "media" = None ->
    fs s !! media_file = Some (Parsed (JDict kv)) ->
    Py.dict_get "media" kv = Some v ->
    transition s (fill_cache "media" v s).

(** Cached answers are booleans, and a cached refusal is never of a
    name on the file's admins list. *)
Definition answers_sound (s : JSONDatabase) : Prop :=
  forall u v, cache s !! answer_key u = Some v ->
    exists b, v = JBool b /\
      (b = false -> forall ads, stored_admins s = Some ads -> JStr u ∉ ads).

(** [q] occurs in [t] once both are lower-cased. *)
Definition occurs_ci `{StrLower} (q t : string) : bool :=
  Py.str_in (str_lower q) (str_lower t).

(** The entries [search_media q] is to return: those whose name or
    description has [q] in it, case aside. *)
Definition hit `{StrLower} (q : string) (m : json) : bool :=
  occurs_ci q (field "name" m) || occurs_ci q (field "description" m).

Definition set_db (d : JSONDatabase) (w : World) : World :=
  {| db := d; storage := storage w; sent := sent w |}.

(** The world after the guard has turned [message] away, the store
    being left as [d]. *)
Definition turned_away (message : Message) (d : JSONDatabase) (w : World) : World :=
  {| db := d; storage := storage w;
     sent := sent w ++ [(chat_id message, ACCESS_DENIED)] |}.




(** A process just started on an empty data directory. *)
Definition fresh_world : World :=
  {| db := init ∅; storage := ∅; sent := [] |}.


(** A handler that writes to the store. *)
Definition store_media : M World unit :=
  with_db (add_media [("name", JStr "a"); ("description", JStr "b")]).

(** Concrete senders, messages and stores to run the handlers on. *)
Definition alice : User := {| user_id := 42; username := Some "alice" |}.
Definition bob : User := {| user_id := 5; username := Some "bob" |}.
Definition carol : User := {| user_id := 6; username := Some "carol" |}.

Definition says (u : User) (t : string) : Message :=
  {| chat_id := user_id u; from_user := Some u; text := Some t |}.

Definition alice_chat : FSMContext := (42, 42).


Definition city_news : list (string * json) :=
  [("name", JStr "City News"); ("description", JStr "daily paper")].

(** A data directory whose whitelist names carol as an admin. *)
Definition disk_with_admin : gmap string content :=
  {[ whitelist_file :=
       Parsed (JDict [("users", JList []); ("admins", JList [JStr "carol"])]) ]}.

(** Unfolding the monad and the file and cache accesses; closing a case
    in which a call leaves the store as it was. *)
Ltac mrun :=
  unfold mbind, M_bind, mret, M_ret, lift, _load_json, _save_json,
    cache_get, cache_set, cache_pop in *; simpl in *.

Ltac stay :=
  left; eexists; first [split; [reflexivity | discriminate] | reflexivity].


(** ** The calls, one by one

    What each call of a history did to the store: nothing, or the one
    write or cache fill of its method. *)

Inductive effect_of (s : JSONDatabase) : call -> JSONDatabase -> Prop :=
| e_none c : effect_of s c s
| e_add_user u kv us :
    fs s !! whitelist_file = Some (Parsed (JDict kv)) ->
    Py.dict_get "users" kv = Some (JList us) ->
    JStr u ∉ us ->
    effect_of s (Add_to_whitelist u)
      (rewrite_doc whitelist_file "users" "whitelist" kv (us ++ [JStr u]) s)
| e_answer u b :
    cache s !! answer_key u = None ->
    is_whitelisted u s = (Ok (JBool b), fill_cache (answer_key u) (JBool b) s) ->
    effect_of s (Is_whitelisted u) (fill_cache (answer_key u) (JBool b) s)
| e_add_event e now kv evs :
    fs s !! events_file = Some (Parsed (JDict kv)) ->
    Py.dict_get "events" kv = Some (JList evs) ->
    effect_of s (Add_event e now)
      (rewrite_doc events_file "events" "events" kv
         (evs ++ [JDict (stamped e now (length evs))]) s)
| e_load_events kv v :
    cache s !! "events" = None ->
    fs s !! events_file = Some (Parsed (JDict kv)) ->
    Py.dict_get "events" kv = Some v ->
    effect_of s Get_events (fill_cache "events" v s)
| e_delete_event i kv evs :
    fs s !! events_file = Some (Parsed (JDict kv)) ->
    Py.dict_get "events" kv = Some (JList evs) ->
    effect_of s (Delete_event i)
      (rewrite_doc events_file "events" "events" kv
         (List.filter (fun e => negb (carries i e)) evs) s)
| e_add_media m kv ms :
    fs s !! media_file = Some (Parsed (JDict kv)) ->
    Py.dict_get "media" kv = Some (JList ms) ->
    effect_of s (Add_media m)
      (rewrite_doc media_file "media" "media" kv (ms ++ [JDict m]) s)
| e_load_media q kv v :
    cache s !! "media" = None ->
    fs s !! media_file = Some (Parsed (JDict kv)) ->
    Py.dict_get "media" kv = Some v ->
    effect_of s (Search_media q) (fill_cache "media" v s).

(** The process started again on the files it left. *)
Definition restart (s : JSONDatabase) : JSONDatabase := init (fs s).

(** The record at index [i] carries the decimal of [i + 1]. *)
Definition numbered (evs : list json) : Prop :=
  forall i x, evs !! i = Some x ->
    Py.getitem x "id" = Ok (JStr (Py.str (Z.of_nat i + 1))).

Definition is_delete (c : call) : bool :=
  match c with
  | Delete_event _ => true
  | _ => false
  end.

(** A cached True is backed by the whitelist document. *)
Definition grants_backed (s : JSONDatabase) : Prop :=
  forall u us ads,
    cache s !! answer_key u = Some (JBool true) ->
    stored_users s = Some us -> stored_admins s = Some ads ->
    JStr u ∈ us \/ JStr u ∈ ads.

(** ** bot.py, the command handlers *)

(** [str.split] is taken as an interface, as [str.lower] is: what counts
    as whitespace is Python's business.  [str_split t] is [t.split()],
    [str_split_max k t] is [t.split(maxsplit=k)]. *)
Class StrSplit : Type := {
  str_split : string -> list string;
  str_split_max : nat -> string -> list string
}.

(** [s.replace("@", "")]. *)
Fixpoint without_at (s : string) : string :=
  match s with
  | EmptyString => EmptyString
  | String c s' =>
      if Ascii.eqb c "@" then without_at s' else String c (without_at s')
  end.

Definition nl : string := String "010" EmptyString.

Module Bot.

Definition ADMINS_ONLY : string := "⛔ Эта команда только для администраторов!".

(** The handler of [/add]; it shares its name with the store's method. *)
Definition add_to_whitelist `{StrSplit} (ADMIN_IDS : list Z) (message : Message)
  : M World unit :=
  match from_user message with
  | None => lift (Raise AttributeError)
  | Some user =>
      if negb (bool_decide (user_id user ∈ ADMIN_IDS)) then
        answer message ADMINS_ONLY
      else
        match text message with
        | None => lift (Raise AttributeError)
        | Some t =>
            match str_split t with
            | _ :: _ :: arg :: _ =>
                let username := without_at arg in
                added ← with_db (add_to_whitelist username);
                if added : bool then
                  answer message
                    ("✅ Пользователь @" +:+ username +:+ " добавлен в whitelist!")
                else
                  answer message
                    ("ℹ️ Пользователь @" +:+ username +:+ " уже в whitelist.")
            | _ => answer message "Использование: /add user @username"
            end
        end
  end.

Definition delete_event_command `{StrSplit} (message : Message) : M World unit :=
  match text message with
  | None => lift (Raise AttributeError)
  | Some t =>
      match str_split t with
      | _ :: event_id :: _ =>
          deleted ← with_db (delete_event event_id);
          if deleted : bool then
            answer message ("✅ Мероприятие " +:+ event_id +:+ " удалено!")
          else
            answer message ("❌ Мероприятие с ID " +:+ event_id +:+ " не найдено.")
      | _ => answer message "Использование: /delete_event <id_мероприятия>"
      end
  end.

Definition add_media_command `{StrSplit} (ADMIN_IDS : list Z) (now : string)
    (message : Message) : M World unit :=
  match from_user message with
  | None => lift (Raise AttributeError)
  | Some user =>
      if negb (bool_decide (user_id user ∈ ADMIN_IDS)) then
        answer message ADMINS_ONLY
      else
        match text message with
        | None => lift (Raise AttributeError)
        | Some t =>
            match str_split_max 2 t with
            | _ :: name :: description :: _ =>
                let media_data :=
                  [("name", JStr name);
                   ("description", JStr description);
                   ("added_by", JStr (username_or_id user));
                   ("added_at", JStr now)] in
                with_db (add_media media_data);;
                answer message ("✅ СМИ '" +:+ name +:+ "' добавлено в базу!")
            | _ => answer message "Использование: /add_media <название> <описание>"
            end
        end
  end.

Definition WELCOME_ADMIN : string := "👑 Добро пожаловать, администратор!".
Definition WELCOME_USER : string := "✅ Добро пожаловать! Ваш доступ подтвержден.".
Definition WELCOME_LOCKED : string :=
  "🔒 У вас нет доступа к боту. Обратитесь к администратору.".

Definition COMMANDS : string :=
  "Доступные команды:" +:+ nl +:+
  "• /admin - админ-панель (только для админов)" +:+ nl +:+
  "• /add user @username - добавить пользователя" +:+ nl +:+
  "• /generate_post - создать пост через AI" +:+ nl +:+
  "• /events - список мероприятий" +:+ nl +:+
  "• /add_event - добавить мероприятие" +:+ nl +:+
  "• /delete_event <id> - удалить мероприятие" +:+ nl +:+
  "• /media - поиск в базе СМИ" +:+ nl +:+
  "• /add_media - добавить СМИ" +:+ nl +:+
  "• /restart_bot - перезапустить бота (админы)" +:+ nl +:+ nl +:+
  "Просто отправьте фото для обработки!".

Definition start_command (ADMIN_IDS : list Z) (message : Message) : M World unit :=
  match from_user message with
  | None => lift (Raise AttributeError)
  | Some user =>
      let username := username_or_id user in
      welcome ←
        (if bool_decide (user_id user ∈ ADMIN_IDS) then mret WELCOME_ADMIN
         else
           allowed ← with_db (is_whitelisted username);
           if Py.truthy allowed then mret WELCOME_USER else mret WELCOME_LOCKED);
      answer message (welcome +:+ nl +:+ nl +:+ COMMANDS)
  end.

End Bot.

(** The world after [reply] went out to the chat of [message]. *)
Definition replied (message : Message) (reply : string) (w : World) : World :=
  {| db := db w; storage := storage w; sent := sent w ++ [(chat_id message, reply)] |}.

(** Splitting on ASCII whitespace, an instance of [str.split] to run
    examples with.  [k] bounds the splits still to make, [cur] is the
    word being read, reversed. *)
Fixpoint split_go (k : option nat) (cur : option string) (s : string) : list string :=
  match s with
  | EmptyString => option_list (String.rev <$> cur)
  | String a s' =>
      match cur with
      | Some w =>
          if Ascii.is_space a then String.rev w :: split_go k None s'
          else split_go k (Some (String a w)) s'
      | None =>
          if Ascii.is_space a then split_go k None s'
          else
            match k with
            | Some O => [String a s']
            | Some (S k') => split_go (Some k') (Some (String a EmptyString)) s'
            | None => split_go None (Some (String a EmptyString)) s'
            end
      end
  end.

Definition AsciiSplit : StrSplit :=
  {| str_split := split_go None None;
     str_split_max := fun k => split_go (Some k) None |}.

(** [process_topic]: the topic goes into the session's data and the next
    state is set.  The inline keyboard sent with the reply is not
    recorded in [sent]. *)
Definition process_topic (message : Message) (state : FSMContext) : M World unit :=
  update_data state "topic" (text_value message);;
  answer message "🎨 Выберите стиль поста:";;
  set_state state PostStates_waiting_for_style.

(** The keys the event conversation and [add_event] write themselves. *)
Definition event_keys : list string :=
  ["title"; "description"; "date"; "creator"; "id"; "created_at"].

(** An administrator, for ADMIN_IDS = [100]. *)
Definition root : User := {| user_id := 100; username := Some "root" |}.

(** A world whose events collection holds one event. *)
Definition world_with_event : World :=
  {| db := snd (add_event [("title", JStr "Meetup")] "t1" (init ∅));
     storage := ∅; sent := [] |}.

(** A data directory whose whitelist lists alice as a user and carol as
    an admin, and whose media collection holds one entry. *)
Definition disk_in_use : gmap string content :=
  {[ whitelist_file :=
       Parsed (JDict [("users", JList [JStr "alice"]);
                      ("admins", JList [JStr "carol"])]);
     media_file := Parsed (JDict [("media", JList [JDict city_news])]) ]}.
(** * Properties *)

(** ** Python primitives *)

Section PyFacts.

Lemma dict_get_set_eq k v kv : Py.dict_get k (Py.dict_set k v kv) = Some v.
Proof.
  induction kv as [|[k' v'] kv IH]; simpl.
  - by rewrite String.eqb_refl.
  - destruct (String.eqb k' k) eqn:E; simpl; rewrite E; done.
Qed.

Lemma dict_get_set_ne k k' v kv :
  k <> k' -> Py.dict_get k' (Py.dict_set k v kv) = Py.dict_get k' kv.
Proof.
  intros Hne. induction kv as [|[k0 v0] kv IH]; simpl.
  - destruct (String.eqb k k') eqn:E; [|done].
    apply String.eqb_eq in E. congruence.
  - destruct (String.eqb k0 k) eqn:E; simpl.
    + apply String.eqb_eq in E. subst k0.
      destruct (String.eqb k k') eqn:E'; [|done].
      apply String.eqb_eq in E'. congruence.
    + by rewrite IH.
Qed.

Lemma existsb_eq_str u (l : list json) :
  existsb (Py.eq_str u) l = true <-> JStr u ∈ l.
Proof.
  rewrite existsb_exists. split.
  - intros (x & Hin & Heq). destruct x; simpl in Heq; try discriminate.
    apply String.eqb_eq in Heq. subst. by apply list_elem_of_In.
  - intros Hin. exists (JStr u). split; [by apply list_elem_of_In|].
    simpl. apply String.eqb_refl.
Qed.

Lemma existsb_eq_str_false u (l : list json) :
  existsb (Py.eq_str u) l = false <-> JStr u ∉ l.
Proof.
  rewrite <- existsb_eq_str. destruct (existsb _ l); split; congruence.
Qed.

Lemma app_cons c a b : String c a +:+ b = String c (a +:+ b).
Proof. reflexivity. Qed.

Lemma app_empty b : "" +:+ b = b.
Proof. reflexivity. Qed.

Lemma prefix_spec q s :
  String.prefix q s = true <-> exists b, s = q +:+ b.
Proof.
  revert s. induction q as [|c q IH]; intros s; simpl.
  - split; [intros _; by exists s|]. by destruct s.
  - destruct s as [|d s]; simpl.
    + split; [done|]. intros [b Hb]. rewrite app_cons in Hb. discriminate.
    + destruct (Ascii.ascii_dec c d) as [->|Hne].
      * rewrite IH. split; intros [b Hb]; exists b;
          rewrite app_cons in *; congruence.
      * split; [done|]. intros [b Hb]. rewrite app_cons in Hb. congruence.
Qed.

Lemma str_in_nil q : Py.str_in q "" = String.prefix q "".
Proof. unfold Py.str_in. apply orb_false_r. Qed.

Lemma str_in_cons q c s :
  Py.str_in q (String c s) = String.prefix q (String c s) || Py.str_in q s.
Proof. reflexivity. Qed.

(** [str_in] is the substring test. *)
Lemma str_in_spec q s :
  Py.str_in q s = true <-> exists a b, s = a +:+ q +:+ b.
Proof.
  induction s as [|c s IH].
  - rewrite str_in_nil, prefix_spec. split.
    + intros [b Hb]. by exists "", b.
    + intros (a & b & Hab). destruct a; [by exists b|].
      rewrite app_cons in Hab. discriminate.
  - rewrite str_in_cons, orb_true_iff, prefix_spec, IH. split.
    + intros [[b Hb]|(a & b & Hab)].
      * by exists "", b.
      * exists (String c a), b. rewrite app_cons. by rewrite Hab.
    + intros (a & b & Hab). destruct a as [|d a].
      * left. by exists b.
      * right. exists a, b. rewrite app_cons in Hab. congruence.
Qed.

Lemma str_in_empty s : Py.str_in "" s = true.
Proof. apply str_in_spec. by exists "", s. Qed.

Lemma comprehension_total (keep : json -> result bool) (p : json -> bool) l :
  Forall (fun x => keep x = Ok (p x)) l ->
  Py.comprehension keep l = Ok (List.filter p l).
Proof.
  induction 1 as [|x l Hx _ IH]; simpl; [done|].
  rewrite Hx, IH. done.
Qed.

Lemma whitelist_key_inj u v : "whitelist_" +:+ u = "whitelist_" +:+ v -> u = v.
Proof. apply (inj (String.append "whitelist_")). Qed.

End PyFacts.

(** ** What one call does to the store *)

Lemma stored_Some path key s l :
  stored path key s = Some l <->
  exists kv, fs s !! path = Some (Parsed (JDict kv)) /\
             Py.dict_get key kv = Some (JList l).
Proof.
  unfold stored. split.
  - intros H. repeat case_match; simplify_eq. eauto.
  - intros (kv & -> & ->). done.
Qed.

Lemma comprehension_carries event_id (l kept : list json) :
  Py.comprehension
    (fun e => match Py.getitem e "id" with
              | Ok v => Ok (negb (Py.eq_str event_id v))
              | Raise x => Raise x
              end) l = Ok kept ->
  kept = List.filter (fun e => negb (carries event_id e)) l.
Proof.
  revert kept. induction l as [|e l IH]; simpl; intros kept H.
  - by simplify_eq.
  - unfold carries at 1.
    destruct (Py.getitem e "id") as [v|]; [|done].
    destruct (Py.comprehension _ l) as [kept'|]; [|done].
    rewrite <- (IH kept' eq_refl). simplify_eq. done.
Qed.

Lemma filter_length_lt {A} (p : A -> bool) (l : list A) :
  (length (List.filter p l) <? length l)%nat = existsb (fun x => negb (p x)) l.
Proof.
  induction l as [|x l IH]; simpl; [done|].
  pose proof (List.filter_length_le p l) as Hle.
  destruct (p x); simpl.
  - rewrite <- IH. destruct (Nat.ltb_spec (length (List.filter p l)) (length l));
      [apply Nat.ltb_lt|apply Nat.ltb_ge]; lia.
  - apply Nat.ltb_lt. lia.
Qed.


Lemma add_to_whitelist_stored u s kv us :
  fs s !! whitelist_file = Some (Parsed (JDict kv)) ->
  Py.dict_get "users" kv = Some (JList us) ->
  add_to_whitelist u s =
    if existsb (Py.eq_str u) us then (Ok false, s)
    else (Ok true, rewrite_doc whitelist_file "users" "whitelist" kv (us ++ [JStr u]) s).
Proof.
  intros Hf Hu. unfold add_to_whitelist. mrun. rewrite Hf. simpl. rewrite Hu. simpl.
  by destruct (existsb (Py.eq_str u) us).
Qed.

Lemma add_to_whitelist_effect u s :
  (exists r, add_to_whitelist u s = (r, s) /\ r <> Ok true) \/
  (exists kv us,
      fs s !! whitelist_file = Some (Parsed (JDict kv)) /\
      Py.dict_get "users" kv = Some (JList us) /\
      (JStr u ∉ us) /\
      add_to_whitelist u s =
        (Ok true, rewrite_doc whitelist_file "users" "whitelist" kv (us ++ [JStr u]) s)).
Proof.
  destruct (fs s !! whitelist_file) as [[|j]|] eqn:Hf.
  1,3: unfold add_to_whitelist; mrun; rewrite Hf; simpl; stay.
  destruct j as [| | | | |kv];
    try (unfold add_to_whitelist; mrun; rewrite Hf; simpl; stay).
  destruct (Py.dict_get "users" kv) as [users|] eqn:Hu;
    [|unfold add_to_whitelist; mrun; rewrite Hf; simpl; rewrite Hu; stay].
  destruct users as [| | |t|us|d];
    try (unfold add_to_whitelist; mrun; rewrite Hf; simpl; rewrite Hu; simpl; stay).
  - unfold add_to_whitelist; mrun; rewrite Hf; simpl; rewrite Hu; simpl.
    destruct (Py.str_in u t); simpl; stay.
  - rewrite (add_to_whitelist_stored u s kv us Hf Hu).
    destruct (existsb (Py.eq_str u) us) eqn:E; [stay|].
    right. exists kv, us. by rewrite <- existsb_eq_str_false.
  - unfold add_to_whitelist; mrun; rewrite Hf; simpl; rewrite Hu; simpl.
    destruct (existsb _ d); simpl; stay.
Qed.

Lemma is_whitelisted_hit u s v :
  cache s !! answer_key u = Some v -> is_whitelisted u s = (Ok v, s).
Proof.
  intros H. unfold is_whitelisted. mrun. unfold answer_key in H. by rewrite H.
Qed.

Lemma is_whitelisted_miss u s us ads :
  cache s !! answer_key u = None ->
  stored_users s = Some us ->
  stored_admins s = Some ads ->
  is_whitelisted u s =
    let b := existsb (Py.eq_str u) us || existsb (Py.eq_str u) ads in
    (Ok (JBool b), fill_cache (answer_key u) (JBool b) s).
Proof.
  intros Hc (kv & Hf & Hu)%stored_Some (kv' & Hf' & Ha)%stored_Some.
  assert (kv' = kv) as -> by congruence.
  unfold is_whitelisted. mrun. unfold answer_key in Hc. rewrite Hc, Hf. simpl.
  rewrite Hu. simpl.
  destruct (existsb (Py.eq_str u) us); simpl; [done|].
  rewrite Ha. simpl. done.
Qed.

Lemma is_whitelisted_effect u s :
  (exists r, is_whitelisted u s = (r, s)) \/
  (exists b,
      cache s !! answer_key u = None /\
      (b = false -> forall ads, stored_admins s = Some ads -> JStr u ∉ ads) /\
      is_whitelisted u s = (Ok (JBool b), fill_cache (answer_key u) (JBool b) s)).
Proof.
  destruct (cache s !! answer_key u) as [v|] eqn:Hc.
  { left. eexists. by apply is_whitelisted_hit. }
  unfold is_whitelisted. mrun. unfold answer_key in Hc. rewrite Hc.
  unfold stored_admins, stored.
  destruct (fs s !! whitelist_file) as [[|j]|] eqn:Hf; simpl; try stay.
  destruct j as [| | | | |kv]; simpl; try stay.
  destruct (Py.dict_get "users" kv) as [users|] eqn:Hu; [|stay].
  destruct (Py.contains users u) as [[|]|] eqn:Hin; [| |stay].
  { right. exists true. split; [done|]. split; [done|]. done. }
  destruct (Py.dict_get "admins" kv) as [admins|] eqn:Ha; [|stay].
  destruct (Py.contains admins u) as [b|] eqn:Hin'; [|stay].
  right. exists b. split; [done|]. split; [|done].
  intros -> ads Hads. destruct admins; simplify_eq/=.
  by apply existsb_eq_str_false.
Qed.

Lemma add_event_stored e now s kv evs :
  fs s !! events_file = Some (Parsed (JDict kv)) ->
  Py.dict_get "events" kv = Some (JList evs) ->
  add_event e now s =
    (Ok (Py.str (Z.of_nat (length evs) + 1)),
     rewrite_doc events_file "events" "events" kv
       (evs ++ [JDict (stamped e now (length evs))]) s).
Proof.
  intros Hf He. unfold add_event. mrun. rewrite Hf. simpl. rewrite He. done.
Qed.

Lemma add_event_effect e now s :
  (exists r, add_event e now s = (r, s) /\ forall x, r <> Ok x) \/
  (exists kv evs,
      fs s !! events_file = Some (Parsed (JDict kv)) /\
      Py.dict_get "events" kv = Some (JList evs) /\
      add_event e now s =
        (Ok (Py.str (Z.of_nat (length evs) + 1)),
         rewrite_doc events_file "events" "events" kv
           (evs ++ [JDict (stamped e now (length evs))]) s)).
Proof.
  destruct (fs s !! events_file) as [[|j]|] eqn:Hf.
  1,3: unfold add_event; mrun; rewrite Hf; simpl; stay.
  destruct j as [| | | | |kv];
    try (unfold add_event; mrun; rewrite Hf; simpl; stay).
  destruct (Py.dict_get "events" kv) as [events|] eqn:He;
    [|unfold add_event; mrun; rewrite Hf; simpl; rewrite He; stay].
  destruct events as [| | |t|evs|d];
    try (unfold add_event; mrun; rewrite Hf; simpl; rewrite He; simpl; stay).
  right. exists kv, evs. eauto using add_event_stored.
Qed.

Lemma get_events_hit s v :
  cache s !! "events" = Some v -> get_events s = (Ok v, s).
Proof. intros H. unfold get_events. mrun. by rewrite H. Qed.

Lemma get_events_miss s kv v :
  cache s !! "events" = None ->
  fs s !! events_file = Some (Parsed (JDict kv)) ->
  Py.dict_get "events" kv = Some v ->
  get_events s = (Ok v, fill_cache "events" v s).
Proof.
  intros Hc Hf He. unfold get_events. mrun. rewrite Hc, Hf. simpl. by rewrite He.
Qed.

Lemma get_events_effect s :
  (exists r, get_events s = (r, s)) \/
  (exists kv v,
      cache s !! "events" = None /\
      fs s !! events_file = Some (Parsed (JDict kv)) /\
      Py.dict_get "events" kv = Some v /\
      get_events s = (Ok v, fill_cache "events" v s)).
Proof.
  destruct (cache s !! "events") as [v|] eqn:Hc.
  { left. eexists. by apply get_events_hit. }
  destruct (fs s !! events_file) as [[|j]|] eqn:Hf.
  1,3: unfold get_events; mrun; rewrite Hc, Hf; simpl; stay.
  destruct j as [| | | | |kv];
    try (unfold get_events; mrun; rewrite Hc, Hf; simpl; stay).
  destruct (Py.dict_get "events" kv) as [v|] eqn:He.
  - right. exists kv, v. eauto using get_events_miss.
  - unfold get_events; mrun; rewrite Hc, Hf; simpl; rewrite He; stay.
Qed.

Lemma carries_is_event event_id e :
  is_event e ->
  match Py.getitem e "id" with
  | Ok v => Ok (negb (Py.eq_str event_id v))
  | Raise x => Raise x
  end = Ok (negb (carries event_id e)).
Proof.
  intros (kv & v & -> & Hv). unfold carries. simpl. by rewrite Hv.
Qed.

Lemma delete_event_stored event_id s kv evs :
  fs s !! events_file = Some (Parsed (JDict kv)) ->
  Py.dict_get "events" kv = Some (JList evs) ->
  Forall is_event evs ->
  delete_event event_id s =
    if existsb (carries event_id) evs
    then (Ok true,
          rewrite_doc events_file "events" "events" kv
            (List.filter (fun e => negb (carries event_id e)) evs) s)
    else (Ok false, s).
Proof.
  intros Hf He Hwf. unfold delete_event. mrun. rewrite Hf. simpl. rewrite He. simpl.
  rewrite (comprehension_total _ (fun e => negb (carries event_id e))).
  2:{ eapply Forall_impl; [exact Hwf|]. intros e. apply carries_is_event. }
  simpl. rewrite filter_length_lt.
  assert (existsb (fun x => negb (negb (carries event_id x))) evs
          = existsb (carries event_id) evs) as ->.
  { clear. induction evs as [|e l IH]; simpl; [done|].
    by rewrite negb_involutive, IH. }
  by destruct (existsb (carries event_id) evs).
Qed.

Lemma delete_event_effect event_id s :
  (exists r, delete_event event_id s = (r, s) /\ r <> Ok true) \/
  (exists kv evs,
      fs s !! events_file = Some (Parsed (JDict kv)) /\
      Py.dict_get "events" kv = Some (JList evs) /\
      delete_event event_id s =
        (Ok true,
         rewrite_doc events_file "events" "events" kv
           (List.filter (fun e => negb (carries event_id e)) evs) s)).
Proof.
  unfold delete_event. mrun.
  destruct (fs s !! events_file) as [[|j]|] eqn:Hf; simpl; try stay.
  destruct j as [| | | | |kv]; simpl; try stay.
  destruct (Py.dict_get "events" kv) as [events|] eqn:He; [|stay].
  destruct events as [| | |t|evs|d]; simpl; try stay.
  - destruct t as [|c t]; simpl; stay.
  - destruct (Py.comprehension _ evs) as [kept|] eqn:Hk; simpl; [|stay].
    destruct (length kept <? length evs)%nat eqn:Hlt; [|stay].
    apply comprehension_carries in Hk. subst kept.
    right. exists kv, evs. done.
  - destruct d as [|[k v] d]; simpl; stay.
Qed.

Lemma add_media_effect m s :
  (exists r, add_media m s = (r, s)) \/
  (exists kv ms,
      fs s !! media_file = Some (Parsed (JDict kv)) /\
      Py.dict_get "media" kv = Some (JList ms) /\
      add_media m s =
        (Ok tt, rewrite_doc media_file "media" "media" kv (ms ++ [JDict m]) s)).
Proof.
  unfold add_media. mrun.
  destruct (fs s !! media_file) as [[|j]|] eqn:Hf; simpl; try stay.
  destruct j as [| | | | |kv]; simpl; try stay.
  destruct (Py.dict_get "media" kv) as [media|] eqn:He; [|stay].
  destruct media as [| | |t|ms|d]; simpl; try stay.
  right. exists kv, ms. done.
Qed.

Section Search.
Context `{StrLower}.

Lemma search_media_hit q s ms :
  cache s !! "media" = Some (JList ms) ->
  search_media q s = (Py.comprehension (media_matches (str_lower q)) ms, s).
Proof. intros Hc. unfold search_media. mrun. rewrite Hc. simpl. rewrite Hc. done. Qed.

Lemma search_media_miss q s kv ms :
  cache s !! "media" = None ->
  fs s !! media_file = Some (Parsed (JDict kv)) ->
  Py.dict_get "media" kv = Some (JList ms) ->
  search_media q s =
    (Py.comprehension (media_matches (str_lower q)) ms,
     fill_cache "media" (JList ms) s).
Proof.
  intros Hc Hf Hm. unfold search_media. mrun. rewrite Hc, Hf. simpl.
  rewrite Hm. simpl. rewrite lookup_insert_eq. done.
Qed.

Lemma search_media_effect q s :
  (exists r, search_media q s = (r, s)) \/
  (exists kv v r,
      cache s !! "media" = None /\
      fs s !! media_file = Some (Parsed (JDict kv)) /\
      Py.dict_get "media" kv = Some v /\
      search_media q s = (r, fill_cache "media" v s)).
Proof.
  unfold search_media. mrun.
  destruct (cache s !! "media") as [v|] eqn:Hc.
  { rewrite Hc. simpl. left. destruct (Py.iter v); simpl; eexists; reflexivity. }
  destruct (fs s !! media_file) as [[|j]|] eqn:Hf; simpl; try stay.
  destruct j as [| | | | |kv]; simpl; try stay.
  destruct (Py.dict_get "media" kv) as [v|] eqn:Hm; [|stay].
  right. exists kv, v. simpl. rewrite lookup_insert_eq. simpl.
  destruct (Py.iter v); simpl; eexists; done.
Qed.

(** Every call is one transition of the store. *)
Lemma exec_transition c s : transition s (exec c s).
Proof.
  destruct c as [u|u|e now| |i|m|q]; simpl.
  - destruct (add_to_whitelist_effect u s) as [(r & -> & _)|(kv & us & ? & ? & ? & ->)];
      simpl; [constructor|by econstructor].
  - destruct (is_whitelisted_effect u s) as [(r & ->)|(b & ? & ? & ->)];
      simpl; [constructor|by econstructor].
  - destruct (add_event_effect e now s) as [(r & -> & _)|(kv & evs & ? & ? & ->)];
      simpl; [constructor|].
    eapply t_events; [done..|]. intros Hwf. apply Forall_app. split; [done|].
    constructor; [|done]. eexists _, _. split; [done|].
    unfold stamped. rewrite dict_get_set_ne by done. apply dict_get_set_eq.
  - destruct (get_events_effect s) as [(r & ->)|(kv & v & ? & ? & ? & ->)];
      simpl; [constructor|by econstructor].
  - destruct (delete_event_effect i s) as [(r & -> & _)|(kv & evs & ? & ? & ->)];
      simpl; [constructor|].
    eapply t_events; [done..|]. intros Hwf.
    apply Forall_forall. intros e He%list_elem_of_In%filter_In.
    destruct He as [He _]. eapply Forall_forall in Hwf; [exact Hwf|].
    by apply list_elem_of_In.
  - destruct (add_media_effect m s) as [(r & ->)|(kv & ms & ? & ? & ->)];
      simpl; [constructor|by econstructor].
  - destruct (search_media_effect q s) as [(r & ->)|(kv & v & r & ? & ? & ? & ->)];
      simpl; [constructor|by econstructor].
Qed.

End Search.

(** ** Invariants of the store *)

Lemma stored_fill_cache path key k v s :
  stored path key (fill_cache k v s) = stored path key s.
Proof. done. Qed.

Lemma stored_rewrite_same path key popped kv l s :
  stored path key (rewrite_doc path key popped kv l s) = Some l.
Proof.
  unfold stored, rewrite_doc. simpl. rewrite lookup_insert_eq.
  by rewrite dict_get_set_eq.
Qed.

Lemma stored_rewrite_other_key path key key' popped kv l s :
  key <> key' ->
  fs s !! path = Some (Parsed (JDict kv)) ->
  stored path key' (rewrite_doc path key popped kv l s) = stored path key' s.
Proof.
  intros Hne Hf. unfold stored, rewrite_doc. simpl.
  rewrite lookup_insert_eq, Hf. by rewrite dict_get_set_ne.
Qed.

Lemma stored_rewrite_other_path path path' key key' popped kv l s :
  path <> path' ->
  stored path' key' (rewrite_doc path key popped kv l s) = stored path' key' s.
Proof.
  intros Hne. unfold stored, rewrite_doc. simpl. by rewrite lookup_insert_ne.
Qed.

Lemma answer_key_fresh u :
  answer_key u <> "whitelist" /\ answer_key u <> "events" /\ answer_key u <> "media".
Proof.
  unfold answer_key. repeat split; intros Heq.
  - repeat rewrite app_cons in Heq. discriminate.
  - discriminate.
  - discriminate.
Qed.

Lemma transition_admins s s' :
  transition s s' -> stored_admins s' = stored_admins s.
Proof.
  unfold stored_admins.
  destruct 1; try done.
  - by apply stored_rewrite_other_key.
  - by apply stored_rewrite_other_path.
  - by apply stored_rewrite_other_path.
Qed.

Lemma transition_coherent s s' :
  transition s s' -> coherent s -> coherent s'.
Proof.
  intros Ht [He Hm]. destruct Ht as [|kv us u Hf Hu Hn|u b Hc Hb|kv evs evs' Hf Hk _
                                     |kv ms ms' Hf Hk|kv v Hc Hf Hk|kv v Hc Hf Hk];
    unfold coherent, rewrite_doc, fill_cache; simpl.
  - done.
  - split; intros v Hv.
    + rewrite lookup_delete_ne in Hv by done. rewrite lookup_insert_ne by done. eauto.
    + rewrite lookup_delete_ne in Hv by done. rewrite lookup_insert_ne by done. eauto.
  - destruct (answer_key_fresh u) as (_ & H1 & H2).
    split; intros v Hv; rewrite lookup_insert_ne in Hv by done; eauto.
  - split; intros v Hv.
    + by rewrite lookup_delete_eq in Hv.
    + rewrite lookup_delete_ne in Hv by done. rewrite lookup_insert_ne by done. eauto.
  - split; intros v Hv.
    + rewrite lookup_delete_ne in Hv by done. rewrite lookup_insert_ne by done. eauto.
    + by rewrite lookup_delete_eq in Hv.
  - split; intros v' Hv.
    + rewrite lookup_insert_eq in Hv. simplify_eq. eauto.
    + rewrite lookup_insert_ne in Hv by done. eauto.
  - split; intros v' Hv.
    + rewrite lookup_insert_ne in Hv by done. eauto.
    + rewrite lookup_insert_eq in Hv. simplify_eq. eauto.
Qed.

Lemma transition_answers s s' :
  transition s s' -> answers_sound s -> answers_sound s'.
Proof.
  intros Ht Hs u v Hv.
  rewrite (transition_admins _ _ Ht).
  destruct (answer_key_fresh u) as (H0 & H1 & H2).
  destruct Ht as [|kv us u' Hf Hu Hn|u' b Hc Hb|kv evs evs' Hf Hk _
                  |kv ms ms' Hf Hk|kv v' Hc Hf Hk|kv v' Hc Hf Hk];
    unfold rewrite_doc, fill_cache in Hv; simpl in Hv.
  - by apply Hs.
  - rewrite lookup_delete_ne in Hv by done. by apply Hs.
  - destruct (decide (u' = u)) as [->|Hne].
    + rewrite lookup_insert_eq in Hv. simplify_eq. eauto.
    + rewrite lookup_insert_ne in Hv; [by apply Hs|].
      intros Heq. by apply whitelist_key_inj in Heq.
  - rewrite lookup_delete_ne in Hv by done. by apply Hs.
  - rewrite lookup_delete_ne in Hv by done. by apply Hs.
  - rewrite lookup_insert_ne in Hv by done. by apply Hs.
  - rewrite lookup_insert_ne in Hv by done. by apply Hs.
Qed.

Lemma transition_users s s' us :
  transition s s' -> stored_users s = Some us -> NoDup us ->
  exists us', stored_users s' = Some us' /\ NoDup us'.
Proof.
  unfold stored_users.
  intros Ht Hus Hnd. destruct Ht as [|kv us0 u Hf Hu Hn| | | | |].
  - eauto.
  - rewrite stored_rewrite_same. eexists; split; [done|].
    assert (us0 = us) as ->.
    { apply stored_Some in Hus as (kv' & ? & ?). congruence. }
    apply NoDup_app. split; [done|]. split.
    + intros x Hx ->%list_elem_of_singleton. done.
    + apply NoDup_singleton.
  - rewrite stored_fill_cache. eauto.
  - rewrite stored_rewrite_other_path by done. eauto.
  - rewrite stored_rewrite_other_path by done. eauto.
  - rewrite stored_fill_cache. eauto.
  - rewrite stored_fill_cache. eauto.
Qed.

Lemma transition_events s s' evs :
  transition s s' -> stored_events s = Some evs -> Forall is_event evs ->
  exists evs', stored_events s' = Some evs' /\ Forall is_event evs'.
Proof.
  unfold stored_events.
  intros Ht Hev Hwf. destruct Ht as [| | |kv evs0 evs' Hf Hk Hkeep| | |].
  - eauto.
  - rewrite stored_rewrite_other_path by done. eauto.
  - rewrite stored_fill_cache. eauto.
  - rewrite stored_rewrite_same. eexists; split; [done|]. apply Hkeep.
    assert (evs0 = evs) as ->; [|done].
    apply stored_Some in Hev as (kv' & ? & ?). congruence.
  - rewrite stored_rewrite_other_path by done. eauto.
  - rewrite stored_fill_cache. eauto.
  - rewrite stored_fill_cache. eauto.
Qed.

Lemma transition_media s s' ms :
  transition s s' -> stored_media s = Some ms ->
  exists ms', stored_media s' = Some ms'.
Proof.
  unfold stored_media.
  intros Ht Hms. destruct Ht.
  - eauto.
  - rewrite stored_rewrite_other_path by done. eauto.
  - rewrite stored_fill_cache. eauto.
  - rewrite stored_rewrite_other_path by done. eauto.
  - rewrite stored_rewrite_same. eauto.
  - rewrite stored_fill_cache. eauto.
  - rewrite stored_fill_cache. eauto.
Qed.

Section Histories.
Context `{StrLower}.

Lemma run_snoc calls c s : run (calls ++ [c]) s = exec c (run calls s).
Proof. unfold run. by rewrite foldl_app. Qed.

(** What holds at the start and across each transition holds after any
    history. *)
Lemma run_invariant (P : JSONDatabase -> Prop) calls s :
  P s ->
  (forall s1 s2, transition s1 s2 -> P s1 -> P s2) ->
  P (run calls s).
Proof.
  intros H0 Hstep. induction calls as [|c calls IH] using rev_ind; [done|].
  rewrite run_snoc. eapply Hstep; [apply exec_transition|done].
Qed.

Lemma run_coherent calls disk : coherent (run calls (init disk)).
Proof.
  apply run_invariant; [|apply transition_coherent].
  split; intros v Hv; simpl in Hv; by rewrite lookup_empty in Hv.
Qed.

Lemma run_answers calls disk : answers_sound (run calls (init disk)).
Proof.
  apply run_invariant; [|apply transition_answers].
  intros u v Hv. simpl in Hv. by rewrite lookup_empty in Hv.
Qed.

Lemma run_admins calls s : stored_admins (run calls s) = stored_admins s.
Proof.
  apply (run_invariant (fun s' => stored_admins s' = stored_admins s)); [done|].
  intros s1 s2 Ht <-. by apply transition_admins.
Qed.

(** A process started on an empty data directory always finds its three
    collections: events that each have an id, users without repeats, no
    admins, and a media list. *)
Lemma fresh_store_collections calls :
  let s := run calls (init ∅) in
  (exists evs, stored_events s = Some evs /\ Forall is_event evs) /\
  (exists us, stored_users s = Some us /\ NoDup us) /\
  stored_admins s = Some [] /\
  (exists ms, stored_media s = Some ms).
Proof.
  intros s. unfold s. split; [|split; [|split]].
  - apply (run_invariant
             (fun s' => exists evs, stored_events s' = Some evs /\ Forall is_event evs)).
    + exists []. split; [by vm_compute|constructor].
    + intros s1 s2 Ht (evs & H1 & H2). by eapply transition_events.
  - apply (run_invariant
             (fun s' => exists us, stored_users s' = Some us /\ NoDup us)).
    + exists []. split; [by vm_compute|apply NoDup_nil_2].
    + intros s1 s2 Ht (us & H1 & H2). by eapply transition_users.
  - rewrite run_admins. by vm_compute.
  - apply (run_invariant (fun s' => exists ms, stored_media s' = Some ms)).
    + exists []. by vm_compute.
    + intros s1 s2 Ht (ms & H1). by eapply transition_media.
Qed.

End Histories.

(** ** The whitelist and its cached answers *)

(** An answer cached for [u] outlives [add_to_whitelist u]: the write
    drops the key ["whitelist"], the answers live under
    ["whitelist_" + u]. *)
Lemma cached_answer_survives_add u s v :
  cache s !! answer_key u = Some v ->
  fst (is_whitelisted u (snd (add_to_whitelist u s))) = Ok v.
Proof.
  intros Hc. destruct (answer_key_fresh u) as (Hne & _).
  destruct (add_to_whitelist_effect u s) as [(r & -> & _)|(kv & us & _ & _ & _ & ->)];
    simpl.
  - by rewrite (is_whitelisted_hit u s v).
  - rewrite (is_whitelisted_hit u _ v); [done|].
    unfold rewrite_doc. simpl. by rewrite lookup_delete_ne.
Qed.

(** Without a cached answer the write is seen. *)
Lemma uncached_answer_sees_add u s us ads :
  cache s !! answer_key u = None ->
  stored_users s = Some us ->
  stored_admins s = Some ads ->
  fst (is_whitelisted u (snd (add_to_whitelist u s))) = Ok (JBool true).
Proof.
  intros Hc Hus Hads. destruct (answer_key_fresh u) as (Hne & _).
  pose proof Hus as (kv & Hf & Hu)%stored_Some.
  rewrite (add_to_whitelist_stored u s kv us Hf Hu).
  destruct (existsb (Py.eq_str u) us) eqn:E; simpl.
  - rewrite (is_whitelisted_miss u s us ads) by done. simpl. by rewrite E.
  - rewrite (is_whitelisted_miss u _ (us ++ [JStr u]) ads).
    + simpl. rewrite existsb_app. simpl. rewrite String.eqb_refl.
      by rewrite orb_true_r.
    + unfold rewrite_doc. simpl. by rewrite lookup_delete_ne.
    + apply stored_rewrite_same.
    + unfold stored_admins. by rewrite stored_rewrite_other_key.
Qed.

(** C1, at the failing input.  On a fresh store: alice is looked up and
    refused, then added to the whitelist (the file now lists her), and
    the next lookup still answers False. *)
Theorem whitelist_answer_stale_after_add :
  let s0 := init ∅ in
  let '(r1, s1) := is_whitelisted "alice" s0 in
  let '(r2, s2) := add_to_whitelist "alice" s1 in
  let '(r3, s3) := is_whitelisted "alice" s2 in
  r1 = Ok (JBool false) /\
  r2 = Ok true /\
  stored_users s2 = Some [JStr "alice"] /\
  r3 = Ok (JBool false).
Proof. vm_compute. done. Qed.

(** The same through the guard: alice is turned away, an administrator
    adds her, and her next message is turned away again. *)
Example added_sender_still_turned_away :
  let '(_, w1) :=
    check_access_middleware [100] (says alice "/events") store_media fresh_world in
  let '(r, w2) := with_db (add_to_whitelist "alice") w1 in
  let '(_, w3) :=
    check_access_middleware [100] (says alice "/events") store_media w2 in
  r = Ok true /\
  stored_users (db w3) = Some [JStr "alice"] /\
  stored_media (db w3) = Some [] /\
  sent w3 = [(42, ACCESS_DENIED); (42, ACCESS_DENIED)].
Proof. vm_compute. done. Qed.

(** ** Event ids *)

(** C2, at the failing input.  Two events are added (ids 1 and 2), the
    first is deleted, a third is added: it is given id 2 again, the id of
    the record still in the collection. *)
Theorem event_id_reused_after_delete :
  let s0 := init ∅ in
  let '(r1, s1) := add_event [("title", JStr "a")] "t1" s0 in
  let '(r2, s2) := add_event [("title", JStr "b")] "t2" s1 in
  let '(r3, s3) := delete_event "1" s2 in
  let '(r4, s4) := add_event [("title", JStr "c")] "t3" s3 in
  r1 = Ok "1" /\ r2 = Ok "2" /\ r3 = Ok true /\
  stored_events s3 =
    Some [JDict [("title", JStr "b"); ("id", JStr "2"); ("created_at", JStr "t2")]] /\
  r4 = Ok "2" /\
  stored_events s4 =
    Some [JDict [("title", JStr "b"); ("id", JStr "2"); ("created_at", JStr "t2")];
          JDict [("title", JStr "c"); ("id", JStr "2"); ("created_at", JStr "t3")]].
Proof. vm_compute. done. Qed.

(** In a collection nothing was deleted from, where the record at
    index [i] carries id [i + 1], the next id is carried by no record. *)
Lemma add_event_id_fresh_without_gap (evs : list json) :
  (forall i x, evs !! i = Some x ->
     Py.getitem x "id" = Ok (JStr (Py.str (Z.of_nat i + 1)))) ->
  forall x, x ∈ evs -> carries (Py.str (Z.of_nat (length evs) + 1)) x = false.
Proof.
  intros Hids x (i & Hi)%list_elem_of_lookup.
  unfold carries. rewrite (Hids i x Hi). simpl.
  apply String.eqb_neq. intros Heq. apply (inj pretty) in Heq.
  apply lookup_lt_Some in Hi. lia.
Qed.

(** ** Bad files *)

(** C3, at the failing inputs.  With the three files holding text that
    is not JSON, or no longer there, each read raises KeyError: the
    empty dict [_load_json] falls back to has no field to index. *)
Theorem reads_raise_on_bad_files :
  let corrupt :=
    init {[ whitelist_file := Garbage; events_file := Garbage; media_file := Garbage ]} in
  let missing := {| fs := ∅; cache := ∅ |} in
  fst (get_events corrupt) = Raise (KeyError "events") /\
  fst (@search_media AsciiLower "news" corrupt) = Raise (KeyError "media") /\
  fst (is_whitelisted "alice" corrupt) = Raise (KeyError "users") /\
  fst (get_events missing) = Raise (KeyError "events") /\
  fst (@search_media AsciiLower "news" missing) = Raise (KeyError "media") /\
  fst (is_whitelisted "alice" missing) = Raise (KeyError "users").
Proof. vm_compute. done. Qed.

(** The same for every store whose events file is unreadable and whose
    cache holds no events. *)
Lemma get_events_raises_on_bad_file s :
  (fs s !! events_file = None \/ fs s !! events_file = Some Garbage) ->
  cache s !! "events" = None ->
  get_events s = (Raise (KeyError "events"), s).
Proof.
  intros Hf Hc. unfold get_events. mrun. rewrite Hc.
  by destruct Hf as [-> | ->].
Qed.

(** ** Appending and listing events *)

Lemma stamped_id e now n :
  Py.getitem (JDict (stamped e now n)) "id" = Ok (JStr (Py.str (Z.of_nat n + 1))).
Proof.
  unfold stamped. simpl. rewrite dict_get_set_ne by done.
  by rewrite dict_get_set_eq.
Qed.

Lemma stamped_created_at e now n :
  Py.getitem (JDict (stamped e now n)) "created_at" = Ok (JStr now).
Proof. unfold stamped. simpl. by rewrite dict_get_set_eq. Qed.

Lemma stamped_other e now n k :
  k <> "id" -> k <> "created_at" ->
  Py.dict_get k (stamped e now n) = Py.dict_get k e.
Proof.
  intros H1 H2. unfold stamped.
  rewrite dict_get_set_ne by done. by rewrite dict_get_set_ne.
Qed.

Lemma get_events_after_rewrite kv evs s :
  get_events (rewrite_doc events_file "events" "events" kv evs s) =
    (Ok (JList evs),
     fill_cache "events" (JList evs)
       (rewrite_doc events_file "events" "events" kv evs s)).
Proof.
  eapply get_events_miss; unfold rewrite_doc; simpl.
  - apply lookup_delete_eq.
  - apply lookup_insert_eq.
  - apply dict_get_set_eq.
Qed.

(** Whatever the store's cache holds, once [add_event] has stored a
    record in a collection [evs], the next [get_events] returns [evs]
    followed by that one record: the caller's fields with the returned
    id (the decimal of the old size plus one) and the timestamp.  When
    no older record carried the new id, the record is found at the last
    index and nowhere else. *)
Lemma add_event_then_get_events s evs event_data now :
  stored_events s = Some evs ->
  let event_id := Py.str (Z.of_nat (length evs) + 1) in
  let record := JDict (stamped event_data now (length evs)) in
  exists s1 s2,
    add_event event_data now s = (Ok event_id, s1) /\
    get_events s1 = (Ok (JList (evs ++ [record])), s2) /\
    fs s2 = fs s1 /\
    (evs ++ [record]) !! length evs = Some record /\
    length (evs ++ [record]) = S (length evs) /\
    Py.getitem record "id" = Ok (JStr event_id) /\
    Py.getitem record "created_at" = Ok (JStr now) /\
    (forall k, k <> "id" -> k <> "created_at" ->
       Py.dict_get k (stamped event_data now (length evs)) = Py.dict_get k event_data) /\
    ((forall e, e ∈ evs -> carries event_id e = false) ->
     forall i, (evs ++ [record]) !! i = Some record <-> i = length evs).
Proof.
  intros (kv & Hf & He)%stored_Some event_id record.
  eexists _, _. split; [by apply add_event_stored|].
  split; [apply get_events_after_rewrite|].
  split; [done|].
  assert ((evs ++ [record]) !! length evs = Some record) as Hlast.
  { rewrite lookup_app_r by lia. by rewrite Nat.sub_diag. }
  split; [done|].
  split; [rewrite length_app; simpl; lia|].
  split; [apply stamped_id|].
  split; [apply stamped_created_at|].
  split; [intros; by apply stamped_other|].
  intros Hfresh i. split; [|by intros ->].
  intros Hi. destruct (decide (i < length evs)%nat) as [Hlt|Hge].
  - rewrite lookup_app_l in Hi by done.
    apply list_elem_of_lookup_2 in Hi. apply Hfresh in Hi.
    unfold carries in Hi. subst record. rewrite stamped_id in Hi.
    simpl in Hi. subst event_id. by rewrite String.eqb_refl in Hi.
  - apply lookup_lt_Some in Hi. rewrite length_app in Hi. simpl in Hi. lia.
Qed.

(** ** Deleting events *)

Lemma filter_carries_none event_id (evs : list json) :
  existsb (carries event_id) evs = false ->
  List.filter (fun e => negb (carries event_id e)) evs = evs.
Proof.
  induction evs as [|e evs IH]; simpl; [done|].
  intros [-> Hrest]%orb_false_elim. simpl. by rewrite IH.
Qed.

Lemma filter_carries_gone event_id (evs : list json) :
  existsb (carries event_id)
    (List.filter (fun e => negb (carries event_id e)) evs) = false.
Proof.
  induction evs as [|e evs IH]; simpl; [done|].
  destruct (carries event_id e) eqn:E; simpl; [done|]. by rewrite E.
Qed.

Lemma filter_is_event event_id (evs : list json) :
  Forall is_event evs ->
  Forall is_event (List.filter (fun e => negb (carries event_id e)) evs).
Proof.
  intros Hwf. apply Forall_forall. intros e He%list_elem_of_In%filter_In.
  destruct He as [He _]. eapply Forall_forall in Hwf; [exact Hwf|].
  by apply list_elem_of_In.
Qed.

Lemma get_events_coherent s evs :
  coherent s -> stored_events s = Some evs ->
  exists s', get_events s = (Ok (JList evs), s') /\ fs s' = fs s.
Proof.
  intros [Hco _] (kv & Hf & He)%stored_Some.
  destruct (cache s !! "events") as [v|] eqn:Hc.
  - destruct (Hco v eq_refl) as (kv' & Hf' & He').
    assert (v = JList evs) as -> by congruence.
    exists s. split; [by apply get_events_hit|done].
  - eexists. split; [by eapply get_events_miss|done].
Qed.

(** C5.  In a process that has made any calls on the store, with an
    events collection [evs] of records that each have an id:
    [delete_event] returns True exactly when some record carried the
    id; the [get_events] that follows returns the records that did not
    carry it, so none that does; deleting the same id again returns
    False and leaves the store as it is, as does deleting an id no
    record carried. *)
Theorem delete_event_spec `{StrLower} disk calls evs event_id :
  let s := run calls (init disk) in
  stored_events s = Some evs ->
  Forall is_event evs ->
  let existed := existsb (carries event_id) evs in
  let rest := List.filter (fun e => negb (carries event_id e)) evs in
  exists s1 s2,
    delete_event event_id s = (Ok existed, s1) /\
    (existed = true <-> exists e, e ∈ evs /\ carries event_id e = true) /\
    get_events s1 = (Ok (JList rest), s2) /\
    Forall (fun e => carries event_id e = false) rest /\
    delete_event event_id s1 = (Ok false, s1) /\
    (existed = false -> s1 = s).
Proof.
  intros s Hev Hwf existed rest.
  pose proof Hev as (kv & Hf & He)%stored_Some.
  pose proof (run_coherent calls disk) as Hco. fold s in Hco.
  assert (existed = true <-> exists e, e ∈ evs /\ carries event_id e = true) as Hiff.
  { unfold existed. rewrite existsb_exists. split.
    - intros (e & He1 & He2). exists e. by rewrite list_elem_of_In.
    - intros (e & He1 & He2). exists e. by rewrite <- list_elem_of_In. }
  assert (Forall (fun e => carries event_id e = false) rest) as Hrest.
  { apply Forall_forall. intros e He'%list_elem_of_In%filter_In.
    destruct He' as [_ He']. by apply negb_true_iff in He'. }
  rewrite (delete_event_stored event_id s kv evs Hf He Hwf). fold existed rest.
  destruct existed eqn:Hex.
  - eexists _, _. split; [done|]. split; [done|].
    split; [apply get_events_after_rewrite|]. split; [done|]. split; [|done].
    erewrite delete_event_stored.
    + unfold rest. by rewrite filter_carries_gone.
    + unfold rewrite_doc. simpl. apply lookup_insert_eq.
    + apply dict_get_set_eq.
    + by apply filter_is_event.
  - assert (rest = evs) as Hsame by (by apply filter_carries_none).
    destruct (get_events_coherent s evs Hco Hev) as (s2 & Hget & _).
    exists s, s2. split; [done|]. split; [done|].
    split; [by rewrite Hsame|]. split; [done|]. split; [|done].
    rewrite (delete_event_stored event_id s kv evs Hf He Hwf).
    fold existed. by rewrite Hex.
Qed.

(** ** Whitelist entries *)

(** C9.  With a whitelist whose users list [us] has no repeats (the
    list a fresh store starts with is empty): after any calls on the
    store the users list still has none; [add_to_whitelist u] returns
    True and appends [u] exactly when [u] was absent, and returns False
    and leaves the store as it is when [u] was present. *)
Theorem whitelist_users_unique `{StrLower} s us :
  stored_users s = Some us ->
  NoDup us ->
  (forall calls, exists us', stored_users (run calls s) = Some us' /\ NoDup us') /\
  (forall u,
     (JStr u ∉ us ->
      exists s', add_to_whitelist u s = (Ok true, s') /\
                 stored_users s' = Some (us ++ [JStr u])) /\
     (JStr u ∈ us -> add_to_whitelist u s = (Ok false, s)) /\
     (fst (add_to_whitelist u s) = Ok true <-> JStr u ∉ us)).
Proof.
  intros Hus Hnd. split.
  - intros calls.
    apply (run_invariant
             (fun s' => exists us', stored_users s' = Some us' /\ NoDup us')).
    + eauto.
    + intros s1 s2 Ht (us1 & H1 & H2). by eapply transition_users.
  - intros u. pose proof Hus as (kv & Hf & Hu)%stored_Some.
    rewrite (add_to_whitelist_stored u s kv us Hf Hu).
    destruct (existsb (Py.eq_str u) us) eqn:E.
    + apply existsb_eq_str in E. split; [done|]. split; [done|].
      simpl. split; [done|]. intros Hn. done.
    + apply existsb_eq_str_false in E. split; [|split; [done|done]].
      intros _. eexists. split; [done|]. apply stored_rewrite_same.
Qed.

(** ** Searching media *)

Section SearchMedia.
Context `{StrLower}.

Lemma occurs_ci_spec q t :
  occurs_ci q t = true <-> exists a b, str_lower t = a +:+ str_lower q +:+ b.
Proof. apply str_in_spec. Qed.

Lemma media_matches_is_media q m :
  is_media m -> media_matches (str_lower q) m = Ok (hit q m).
Proof.
  intros (kv & -> & Hname & Hdesc).
  unfold media_matches, hit, occurs_ci, field. simpl.
  destruct (Py.dict_get "name" kv) as [v|] eqn:En; simpl.
  - destruct (Hname v eq_refl) as [t ->].
    destruct (Py.str_in (str_lower q) (str_lower t)); simpl; [done|].
    destruct (Py.dict_get "description" kv) as [v'|] eqn:Ed; simpl; [|done].
    by destruct (Hdesc v' eq_refl) as [t' ->].
  - destruct (Py.str_in (str_lower q) (str_lower "")); simpl; [done|].
    destruct (Py.dict_get "description" kv) as [v'|] eqn:Ed; simpl; [|done].
    by destruct (Hdesc v' eq_refl) as [t' ->].
Qed.

Lemma search_media_coherent q s ms :
  coherent s -> stored_media s = Some ms ->
  exists s', search_media q s = (Py.comprehension (media_matches (str_lower q)) ms, s')
             /\ fs s' = fs s.
Proof.
  intros [_ Hco] (kv & Hf & Hm)%stored_Some.
  destruct (cache s !! "media") as [v|] eqn:Hc.
  - destruct (Hco v eq_refl) as (kv' & Hf' & Hm').
    assert (v = JList ms) as -> by congruence.
    exists s. split; [by apply search_media_hit|done].
  - eexists. split; [by eapply search_media_miss|done].
Qed.

Lemma hit_empty m : hit "" m = true.
Proof.
  unfold hit, occurs_ci. rewrite str_lower_empty. by rewrite str_in_empty.
Qed.

Lemma filter_all {A} (p : A -> bool) (l : list A) :
  (forall x, x ∈ l -> p x = true) -> List.filter p l = l.
Proof.
  induction l as [|x l IH]; simpl; intros Hall; [done|].
  rewrite (Hall x) by apply list_elem_of_here.
  rewrite IH; [done|]. intros y Hy. apply Hall. by apply list_elem_of_further.
Qed.

Lemma filter_none {A} (p : A -> bool) (l : list A) :
  (forall x, x ∈ l -> p x = false) -> List.filter p l = [].
Proof.
  induction l as [|x l IH]; simpl; intros Hall; [done|].
  rewrite (Hall x) by apply list_elem_of_here.
  apply IH. intros y Hy. apply Hall. by apply list_elem_of_further.
Qed.

(** C8.  In a process that has made any calls on the store, with a
    media collection [ms] of entries whose name and description are
    text where present: [search_media q] returns the entries of [ms],
    in the order of [ms], for which the lower-cased query occurs in the
    lower-cased name or in the lower-cased description (a missing field
    reads as the empty text).  When no entry matches the result is
    empty, and the empty query returns all of [ms]. *)
Theorem search_media_spec disk calls q ms :
  let s := run calls (init disk) in
  stored_media s = Some ms ->
  Forall is_media ms ->
  fst (search_media q s) = Ok (List.filter (hit q) ms) /\
  (forall m, hit q m = true <->
     (exists a b, str_lower (field "name" m) = a +:+ str_lower q +:+ b) \/
     (exists a b, str_lower (field "description" m) = a +:+ str_lower q +:+ b)) /\
  ((forall m, m ∈ ms -> hit q m = false) -> fst (search_media q s) = Ok []) /\
  fst (search_media "" s) = Ok ms.
Proof.
  intros s Hms Hwf.
  pose proof (run_coherent calls disk) as Hco. fold s in Hco.
  assert (forall q', fst (search_media q' s) = Ok (List.filter (hit q') ms)) as Hsearch.
  { intros q'. destruct (search_media_coherent q' s ms Hco Hms) as (s' & -> & _).
    simpl. apply comprehension_total.
    eapply Forall_impl; [exact Hwf|]. intros m. apply media_matches_is_media. }
  split; [apply Hsearch|]. split; [|split].
  - intros m. unfold hit. rewrite orb_true_iff. by rewrite !occurs_ci_spec.
  - intros Hnone. rewrite Hsearch. by rewrite filter_none.
  - rewrite Hsearch. f_equal. apply filter_all. intros m _. apply hit_empty.
Qed.

End SearchMedia.

(** The scenario of the specification, with ASCII case folding. *)
Example search_city_news :
  let entry := JDict [("name", JStr "City News"); ("description", JStr "daily")] in
  let s := snd (add_media [("name", JStr "City News"); ("description", JStr "daily")]
                  (init ∅)) in
  fst (@search_media AsciiLower "news" s) = Ok [entry] /\
  fst (@search_media AsciiLower "xyz" s) = Ok [].
Proof. vm_compute. done. Qed.

(** ** The access guard *)

Lemma guard_admin ADMIN_IDS message user handler w :
  from_user message = Some user ->
  user_id user ∈ ADMIN_IDS ->
  check_access_middleware ADMIN_IDS message handler w = handler w.
Proof.
  intros Hu Hadm. unfold check_access_middleware. rewrite Hu.
  by rewrite bool_decide_eq_true_2.
Qed.

Lemma guard_lookup ADMIN_IDS message user handler w v d :
  from_user message = Some user ->
  user_id user ∉ ADMIN_IDS ->
  is_whitelisted (username_or_id user) (db w) = (Ok v, d) ->
  check_access_middleware ADMIN_IDS message handler w =
    if Py.truthy v then handler (set_db d w)
    else (Ok tt, turned_away message d w).
Proof.
  intros Hu Hadm Hw. unfold check_access_middleware. rewrite Hu.
  rewrite bool_decide_eq_false_2 by done.
  unfold mbind, M_bind, with_db. rewrite Hw.
  by destruct (Py.truthy v).
Qed.


Lemma is_whitelisted_keeps_files u s r s' :
  is_whitelisted u s = (r, s') -> fs s' = fs s.
Proof.
  intros Hw.
  destruct (is_whitelisted_effect u s) as [(r0 & Hr)|(b & _ & _ & Hr)];
    rewrite Hr in Hw; by simplify_eq.
Qed.

(** The guard follows the answer of the lookup, on any store: an
    administrator has the handler run with no lookup; for any other
    sender whose lookup returns, the handler runs when the answer is
    true, and the denial is sent otherwise, with the same outcome
    whatever the handler is; an answer not taken from the cache is list
    membership. *)
Lemma guard_follows_answer ADMIN_IDS message user handler w :
  from_user message = Some user ->
  let name := username_or_id user in
  (user_id user ∈ ADMIN_IDS ->
   check_access_middleware ADMIN_IDS message handler w = handler w) /\
  (user_id user ∉ ADMIN_IDS ->
   forall v d, is_whitelisted name (db w) = (Ok v, d) ->
     fs d = fs (db w) /\
     (Py.truthy v = true ->
      check_access_middleware ADMIN_IDS message handler w = handler (set_db d w)) /\
     (Py.truthy v = false ->
      forall handler',
        check_access_middleware ADMIN_IDS message handler' w =
          (Ok tt, turned_away message d w)) /\
     (cache (db w) !! answer_key name = None ->
      forall us ads,
        stored_users (db w) = Some us -> stored_admins (db w) = Some ads ->
        v = JBool (existsb (Py.eq_str name) us || existsb (Py.eq_str name) ads))).
Proof.
  intros Hu name. split; [by apply guard_admin|].
  intros Hadm v d Hw. split; [by eapply is_whitelisted_keeps_files|].
  split; [|split].
  - intros Ht. rewrite (guard_lookup _ _ _ _ _ v d Hu Hadm Hw). by rewrite Ht.
  - intros Ht handler'.
    rewrite (guard_lookup _ _ _ _ _ v d Hu Hadm Hw). by rewrite Ht.
  - intros Hc us ads Hus Hads.
    rewrite (is_whitelisted_miss name (db w) us ads Hc Hus Hads) in Hw.
    simpl in Hw. by simplify_eq.
Qed.


(** ** Admins named in the whitelist document *)

Section FileAdmins.
Context `{StrLower}.

(** C10.  In a process that has made any calls on the store, with a
    whitelist document holding a users list and an admins list: for a
    name on the admins list [is_whitelisted] answers True, touching no
    file, and the guard runs the handler for a sender with that handle
    (or that numeric id as text) whether or not the sender's id is in
    ADMIN_IDS. *)
Theorem file_admins_are_whitelisted disk calls ADMIN_IDS w message user handler
    us ads :
  db w = run calls (init disk) ->
  stored_users (db w) = Some us ->
  stored_admins (db w) = Some ads ->
  from_user message = Some user ->
  JStr (username_or_id user) ∈ ads ->
  exists d,
    is_whitelisted (username_or_id user) (db w) = (Ok (JBool true), d) /\
    fs d = fs (db w) /\
    check_access_middleware ADMIN_IDS message handler w =
      handler (if bool_decide (user_id user ∈ ADMIN_IDS) then w else set_db d w).
Proof.
  intros Hdb Hus Hads Hu Hin.
  set (name := username_or_id user) in *.
  assert (exists d, is_whitelisted name (db w) = (Ok (JBool true), d)) as [d Hw].
  { destruct (cache (db w) !! answer_key name) as [v|] eqn:Hc.
    - pose proof (run_answers calls disk) as Hsound. rewrite <- Hdb in Hsound.
      destruct (Hsound name v Hc) as (b & -> & Hb).
      destruct b; [|by destruct (Hb eq_refl ads Hads)].
      eexists. by apply is_whitelisted_hit.
    - rewrite (is_whitelisted_miss name (db w) us ads Hc Hus Hads). simpl.
      apply existsb_eq_str in Hin. rewrite Hin, orb_true_r. eauto. }
  exists d. split; [done|]. split; [by eapply is_whitelisted_keeps_files|].
  destruct (decide (user_id user ∈ ADMIN_IDS)) as [Hadm|Hadm].
  - rewrite bool_decide_eq_true_2 by done. by eapply guard_admin.
  - rewrite bool_decide_eq_false_2 by done.
    by rewrite (guard_lookup _ _ _ _ _ _ d Hu Hadm Hw).
Qed.

End FileAdmins.

(** ** The event conversation *)

Lemma session_put state x w :
  session_of state (snd (put_session state x w)) = x.
Proof. unfold session_of, put_session. simpl. by rewrite lookup_insert_eq. Qed.

Lemma start_add_event_run message state w :
  exists w', start_add_event message state w = (Ok tt, w') /\
    db w' = db w /\
    current_state (session_of state w') = Some EventStates_waiting_for_title /\
    scratch (session_of state w') = scratch (session_of state w).
Proof.
  eexists. split; [reflexivity|]. split; [done|].
  unfold session_of. simpl. by rewrite lookup_insert_eq.
Qed.

Lemma process_event_title_run message state w :
  exists w', process_event_title message state w = (Ok tt, w') /\
    db w' = db w /\
    current_state (session_of state w') = Some EventStates_waiting_for_description /\
    scratch (session_of state w') =
      Py.dict_set "title" (text_value message) (scratch (session_of state w)).
Proof.
  eexists. split; [reflexivity|]. split; [done|].
  unfold session_of. simpl. rewrite !lookup_insert_eq. done.
Qed.

Lemma process_event_description_run message state w :
  exists w', process_event_description message state w = (Ok tt, w') /\
    db w' = db w /\
    current_state (session_of state w') = Some EventStates_waiting_for_date /\
    scratch (session_of state w') =
      Py.dict_set "description" (text_value message) (scratch (session_of state w)).
Proof.
  eexists. split; [reflexivity|]. split; [done|].
  unfold session_of. simpl. rewrite !lookup_insert_eq. done.
Qed.

Lemma process_event_date_run now message state user w evs :
  from_user message = Some user ->
  stored_events (db w) = Some evs ->
  let event_data :=
    Py.dict_set "creator" (JStr (username_or_id user))
      (Py.dict_set "date" (text_value message) (scratch (session_of state w))) in
  let event_id := Py.str (Z.of_nat (length evs) + 1) in
  exists w', process_event_date now message state w = (Ok tt, w') /\
    stored_events (db w') = Some (evs ++ [JDict (stamped event_data now (length evs))]) /\
    session_of state w' = no_session /\
    sent w' = sent w ++ [(chat_id message, "✅ Мероприятие добавлено! ID: " +:+ event_id)].
Proof.
  intros Hu (kv & Hf & He)%stored_Some event_data event_id.
  unfold process_event_date, get_data. unfold mbind at 1. unfold M_bind at 1.
  rewrite Hu. unfold mbind at 1. unfold M_bind at 1. unfold with_db.
  rewrite (add_event_stored _ now (db w) kv evs Hf He).
  eexists. split; [reflexivity|]. simpl. split; [|split; [|done]].
  - apply stored_rewrite_same.
  - unfold session_of. simpl. by rewrite lookup_insert_eq.
Qed.


Lemma username_or_id_handle user h :
  username user = Some h -> h <> "" -> username_or_id user = h.
Proof.
  intros Hh Hne. unfold username_or_id. rewrite Hh.
  destruct (String.eqb h "") eqn:E; [|done]. by apply String.eqb_eq in E.
Qed.

Lemma username_or_id_no_handle user :
  username user = None -> username_or_id user = Py.str (user_id user).
Proof. intros Hh. unfold username_or_id. by rewrite Hh. Qed.

(** ** The theorems at concrete inputs *)

Example add_event_then_get_events_fresh :
  stored_events (init ∅) = Some [] /\
  exists s1 s2,
    add_event [("title", JStr "Meetup")] "2029-12-01T10:00:00" (init ∅) = (Ok "1", s1) /\
    get_events s1 =
      (Ok (JList [JDict [("title", JStr "Meetup"); ("id", JStr "1");
                         ("created_at", JStr "2029-12-01T10:00:00")]]), s2).
Proof.
  assert (stored_events (init ∅) = Some []) as Hev by (by vm_compute).
  split; [exact Hev|].
  destruct (add_event_then_get_events (init ∅) [] [("title", JStr "Meetup")]
              "2029-12-01T10:00:00" Hev) as (s1 & s2 & H1 & H2 & _).
  exists s1, s2. split; [exact H1|exact H2].
Qed.

Lemma delete_event_spec_witness :
  let s := @run AsciiLower [Add_event [("title", JStr "a")] "t1"; Get_events] (init ∅) in
  let e := JDict [("title", JStr "a"); ("id", JStr "1"); ("created_at", JStr "t1")] in
  stored_events s = Some [e] /\
  Forall is_event [e] /\
  exists s1 s2,
    delete_event "1" s = (Ok true, s1) /\
    get_events s1 = (Ok (JList []), s2) /\
    delete_event "1" s1 = (Ok false, s1).
Proof.
  intros s e.
  assert (stored_events s = Some [e]) as Hev by (by vm_compute).
  assert (Forall is_event [e]) as Hwf.
  { constructor; [|constructor]. eexists _, _. split; reflexivity. }
  split; [exact Hev|]. split; [exact Hwf|].
  destruct (@delete_event_spec AsciiLower ∅
              [Add_event [("title", JStr "a")] "t1"; Get_events] [e] "1" Hev Hwf)
    as (s1 & s2 & H1 & _ & H2 & _ & H3 & _).
  exists s1, s2. split; [exact H1|]. split; [exact H2|exact H3].
Defined.

Lemma whitelist_users_unique_witness :
  stored_users (init ∅) = Some [] /\
  NoDup ([] : list json) /\
  (exists us', stored_users (@run AsciiLower [Add_to_whitelist "alice";
                                              Add_to_whitelist "alice"] (init ∅))
               = Some us' /\ NoDup us') /\
  exists s', add_to_whitelist "alice" (init ∅) = (Ok true, s') /\
             stored_users s' = Some [JStr "alice"].
Proof.
  assert (stored_users (init ∅) = Some []) as Hus by (by vm_compute).
  split; [exact Hus|]. split; [apply NoDup_nil_2|].
  destruct (@whitelist_users_unique AsciiLower (init ∅) [] Hus (NoDup_nil_2))
    as [Hall Hadd].
  split; [apply Hall|].
  destruct (Hadd "alice") as (Hnew & _).
  apply Hnew. apply not_elem_of_nil.
Defined.

Lemma search_media_spec_witness :
  let s := @run AsciiLower [Add_media city_news] (init ∅) in
  stored_media s = Some [JDict city_news] /\
  Forall is_media [JDict city_news] /\
  fst (@search_media AsciiLower "news" s) = Ok [JDict city_news] /\
  fst (@search_media AsciiLower "" s) = Ok [JDict city_news].
Proof.
  intros s.
  assert (stored_media s = Some [JDict city_news]) as Hms by (by vm_compute).
  assert (Forall is_media [JDict city_news]) as Hwf.
  { constructor; [|constructor]. eexists. split; [reflexivity|].
    split; intros v Hv; vm_compute in Hv; simplify_eq; eauto. }
  split; [exact Hms|]. split; [exact Hwf|].
  destruct (@search_media_spec AsciiLower ∅ [Add_media city_news] "news"
              [JDict city_news] Hms Hwf) as (H1 & _ & _ & H2).
  split; [exact H1|exact H2].
Defined.

Example guard_follows_answer_bob :
  from_user (says bob "/events") = Some bob /\
  check_access_middleware [100] (says bob "/events") store_media fresh_world =
    (Ok tt, turned_away (says bob "/events")
              (snd (is_whitelisted "bob" (init ∅))) fresh_world).
Proof.
  split; [reflexivity|].
  destruct (guard_follows_answer [100] (says bob "/events") bob store_media fresh_world
              eq_refl) as [_ Hother].
  assert (user_id bob ∉ [100]) as Hadm.
  { intros Hin%list_elem_of_singleton. discriminate. }
  destruct (Hother Hadm (JBool false) (snd (is_whitelisted "bob" (init ∅))))
    as (_ & _ & Hdeny & _).
  - by vm_compute.
  - apply Hdeny. reflexivity.
Qed.

Lemma file_admins_are_whitelisted_witness :
  let w := {| db := @run AsciiLower [Is_whitelisted "carol"] (init disk_with_admin);
              storage := ∅; sent := [] |} in
  db w = @run AsciiLower [Is_whitelisted "carol"] (init disk_with_admin) /\
  stored_users (db w) = Some [] /\
  stored_admins (db w) = Some [JStr "carol"] /\
  from_user (says carol "/events") = Some carol /\
  JStr (username_or_id carol) ∈ [JStr "carol"] /\
  exists d,
    is_whitelisted "carol" (db w) = (Ok (JBool true), d) /\
    check_access_middleware [100] (says carol "/events") store_media w =
      store_media (set_db d w).
Proof.
  intros w.
  assert (stored_users (db w) = Some []) as Hus by (by vm_compute).
  assert (stored_admins (db w) = Some [JStr "carol"]) as Hads by (by vm_compute).
  assert (JStr (username_or_id carol) ∈ [JStr "carol"]) as Hin
    by apply list_elem_of_here.
  split; [reflexivity|]. split; [exact Hus|]. split; [exact Hads|].
  split; [reflexivity|]. split; [exact Hin|].
  destruct (@file_admins_are_whitelisted AsciiLower disk_with_admin
              [Is_whitelisted "carol"] [100] w (says carol "/events") carol
              store_media [] [JStr "carol"] eq_refl Hus Hads eq_refl Hin)
    as (d & H1 & _ & H2).
  exists d. split; [exact H1|exact H2].
Defined.


(** * Further properties of the store *)

Section Effects.
Context `{StrLower}.

Lemma exec_effect c s : effect_of s c (exec c s).
Proof.
  destruct c as [u|u|e now| |i|m|q]; simpl.
  - destruct (add_to_whitelist_effect u s) as [(r & -> & _)|(kv & us & ? & ? & ? & ->)];
      simpl; [constructor|by econstructor].
  - destruct (is_whitelisted_effect u s) as [(r & ->)|(b & ? & ? & Hw)].
    + constructor.
    + rewrite Hw. simpl. by constructor.
  - destruct (add_event_effect e now s) as [(r & -> & _)|(kv & evs & ? & ? & ->)];
      simpl; [constructor|by econstructor].
  - destruct (get_events_effect s) as [(r & ->)|(kv & v & ? & ? & ? & ->)];
      simpl; [constructor|by econstructor].
  - destruct (delete_event_effect i s) as [(r & -> & _)|(kv & evs & ? & ? & ->)];
      simpl; [constructor|by econstructor].
  - destruct (add_media_effect m s) as [(r & ->)|(kv & ms & ? & ? & ->)];
      simpl; [constructor|by econstructor].
  - destruct (search_media_effect q s) as [(r & ->)|(kv & v & r & ? & ? & ? & ->)];
      simpl; [constructor|by econstructor].
Qed.

Lemma run_effects (P : JSONDatabase -> Prop) (ok : call -> bool) calls s :
  P s ->
  forallb ok calls = true ->
  (forall s1 c s2, ok c = true -> effect_of s1 c s2 -> P s1 -> P s2) ->
  P (run calls s).
Proof.
  intros H0 Hok Hstep. induction calls as [|c calls IH] using rev_ind; [done|].
  rewrite forallb_app in Hok. apply andb_true_iff in Hok as [Hcalls Hc].
  simpl in Hc. rewrite andb_true_r in Hc.
  rewrite run_snoc. eapply Hstep; [exact Hc|apply exec_effect|by apply IH].
Qed.

Lemma run_effects_all (P : JSONDatabase -> Prop) calls s :
  P s ->
  (forall s1 c s2, effect_of s1 c s2 -> P s1 -> P s2) ->
  P (run calls s).
Proof.
  intros H0 Hstep. apply (run_effects P (fun _ => true)); [done| |by eauto].
  by induction calls.
Qed.

End Effects.

(** ** Start-up *)

Lemma init_files_lookup (l : list (string * json)) (d : gmap string content) path :
  foldl (fun d p => match d !! fst p with
                    | None => <[fst p := Parsed (snd p)]> d
                    | Some _ => d
                    end) d l !! path =
    match d !! path with
    | Some c => Some c
    | None => Parsed <$> Py.dict_get path l
    end.
Proof.
  revert d. induction l as [|[k v] l IH]; intros d; simpl.
  - by destruct (d !! path).
  - rewrite IH. destruct (String.eqb_spec k path) as [->|Hne].
    + destruct (d !! path) as [c|] eqn:E; [by rewrite E|].
      by rewrite lookup_insert_eq.
    + destruct (d !! k) as [c|] eqn:E; [done|].
      by rewrite lookup_insert_ne.
Qed.

Lemma init_lookup disk path :
  fs (init disk) !! path =
    match disk !! path with
    | Some c => Some c
    | None => Parsed <$> Py.dict_get path defaults
    end.
Proof. apply init_files_lookup. Qed.

(** X1.  Start-up keeps every file it finds as it is, readable or not,
    writes the default document to each of the three files it does not
    find, and to no other path; the cache starts empty; starting again
    on the files start-up left changes none of them. *)
Theorem start_up_keeps_existing_files disk :
  (forall path c, disk !! path = Some c -> fs (init disk) !! path = Some c) /\
  (forall path doc, disk !! path = None -> Py.dict_get path defaults = Some doc ->
     fs (init disk) !! path = Some (Parsed doc)) /\
  (forall path, disk !! path = None -> Py.dict_get path defaults = None ->
     fs (init disk) !! path = None) /\
  (is_Some (fs (init disk) !! whitelist_file) /\
   is_Some (fs (init disk) !! events_file) /\
   is_Some (fs (init disk) !! media_file)) /\
  cache (init disk) = ∅ /\
  fs (init (fs (init disk))) = fs (init disk).
Proof.
  split; [|split; [|split; [|split; [|split; [done|]]]]].
  - intros path c Hc. by rewrite init_lookup, Hc.
  - intros path doc Hc Hd. by rewrite init_lookup, Hc, Hd.
  - intros path Hc Hd. by rewrite init_lookup, Hc, Hd.
  - repeat split; rewrite init_lookup; by case_match.
  - apply map_eq. intros path. rewrite (init_lookup (fs (init disk))).
    destruct (fs (init disk) !! path) as [c|] eqn:E; [done|].
    rewrite init_lookup in E. destruct (disk !! path); [done|].
    by destruct (Py.dict_get path defaults).
Qed.

(** ** Reads and refused writes *)

Section Reads.
Context `{StrLower}.

(** X2.  The three reads never write a file: whatever they return or
    raise, and whatever they put in the cache, the files are as
    before. *)
Theorem reads_write_no_file s u q :
  fs (snd (is_whitelisted u s)) = fs s /\
  fs (snd (get_events s)) = fs s /\
  fs (snd (search_media q s)) = fs s.
Proof.
  split; [|split].
  - destruct (is_whitelisted u s) as [r s'] eqn:E. simpl.
    by eapply is_whitelisted_keeps_files.
  - by destruct (get_events_effect s) as [(r & ->)|(kv & v & _ & _ & _ & ->)].
  - by destruct (search_media_effect q s) as [(r & ->)|(kv & v & r & _ & _ & _ & ->)].
Qed.

End Reads.

(** X3.  A write the method itself refuses leaves the whole store, files
    and cache, as it was: [add_to_whitelist] and [delete_event]
    whenever they return False, and each of the four writers whenever
    it raises KeyError, TypeError or AttributeError on the shape of the
    document, which it does before it opens the file for writing.  (A
    failure of the file write itself is not among these.) *)
Theorem refused_writes_change_nothing s :
  (forall u r s', add_to_whitelist u s = (r, s') -> r <> Ok true -> s' = s) /\
  (forall i r s', delete_event i s = (r, s') -> r <> Ok true -> s' = s) /\
  (forall e now err s', add_event e now s = (Raise err, s') -> s' = s) /\
  (forall m err s', add_media m s = (Raise err, s') -> s' = s).
Proof.
  split; [|split; [|split]].
  - intros u r s' E Hr.
    destruct (add_to_whitelist_effect u s) as [(r0 & E0 & _)|(kv & us & _ & _ & _ & E0)];
      rewrite E0 in E; by simplify_eq.
  - intros i r s' E Hr.
    destruct (delete_event_effect i s) as [(r0 & E0 & _)|(kv & evs & _ & _ & E0)];
      rewrite E0 in E; by simplify_eq.
  - intros e now err s' E.
    destruct (add_event_effect e now s) as [(r0 & E0 & _)|(kv & evs & _ & _ & E0)];
      rewrite E0 in E; by simplify_eq.
  - intros m err s' E.
    destruct (add_media_effect m s) as [(r0 & E0)|(kv & ms & _ & _ & E0)];
      rewrite E0 in E; by simplify_eq.
Qed.

(** ** Collections that only grow *)

Lemma effect_users s c s' us' :
  effect_of s c s' -> stored_users s' = Some us' ->
  exists us, stored_users s = Some us /\ (us' = us \/ exists u, us' = us ++ [JStr u]).
Proof.
  unfold stored_users. intros He Hus. destruct He.
  - eauto.
  - rewrite stored_rewrite_same in Hus. simplify_eq.
    exists us. split; [apply stored_Some; eauto|eauto].
  - rewrite stored_fill_cache in Hus. eauto.
  - rewrite stored_rewrite_other_path in Hus by done. eauto.
  - rewrite stored_fill_cache in Hus. eauto.
  - rewrite stored_rewrite_other_path in Hus by done. eauto.
  - rewrite stored_rewrite_other_path in Hus by done. eauto.
  - rewrite stored_fill_cache in Hus. eauto.
Qed.

Lemma effect_admins s c s' : effect_of s c s' -> stored_admins s' = stored_admins s.
Proof.
  unfold stored_admins. destruct 1; try done.
  - by apply stored_rewrite_other_key.
  - by apply stored_rewrite_other_path.
  - by apply stored_rewrite_other_path.
  - by apply stored_rewrite_other_path.
Qed.

Lemma effect_media s c s' ms :
  effect_of s c s' -> stored_media s = Some ms ->
  exists more, stored_media s' = Some (ms ++ more).
Proof.
  unfold stored_media. intros He Hms. destruct He.
  - exists []. by rewrite app_nil_r.
  - rewrite stored_rewrite_other_path by done. exists []. by rewrite app_nil_r.
  - rewrite stored_fill_cache. exists []. by rewrite app_nil_r.
  - rewrite stored_rewrite_other_path by done. exists []. by rewrite app_nil_r.
  - rewrite stored_fill_cache. exists []. by rewrite app_nil_r.
  - rewrite stored_rewrite_other_path by done. exists []. by rewrite app_nil_r.
  - rewrite stored_rewrite_same.
    apply stored_Some in Hms as (kv' & ? & ?).
    assert (ms0 = ms) as -> by congruence. eauto.
  - rewrite stored_fill_cache. exists []. by rewrite app_nil_r.
Qed.

Section Growth.
Context `{StrLower}.

(** X4.  No call takes a name off the whitelist or reorders it: after
    any calls the users list is the earlier list with names added at
    the end, and the admins list is what it was. *)
Theorem whitelist_only_grows s us calls :
  stored_users s = Some us ->
  (exists more, stored_users (run calls s) = Some (us ++ more)) /\
  stored_admins (run calls s) = stored_admins s.
Proof.
  intros Hus. split; [|apply run_admins].
  apply (run_invariant (fun s' => exists more, stored_users s' = Some (us ++ more))).
  - exists []. by rewrite app_nil_r.
  - intros s1 s2 Ht (more & Hs1). unfold stored_users in *. destruct Ht.
    + eauto.
    + rewrite stored_rewrite_same.
      apply stored_Some in Hs1 as (kv' & ? & ?).
      assert (us0 = us ++ more) as -> by congruence.
      exists (more ++ [JStr u]). by rewrite app_assoc.
    + rewrite stored_fill_cache. eauto.
    + rewrite stored_rewrite_other_path by done. eauto.
    + rewrite stored_rewrite_other_path by done. eauto.
    + rewrite stored_fill_cache. eauto.
    + rewrite stored_fill_cache. eauto.
Qed.

(** X5.  No call removes or changes a media entry: after any calls the
    media collection is the earlier one with entries added at the
    end. *)
Theorem media_only_grows s ms calls :
  stored_media s = Some ms ->
  exists more, stored_media (run calls s) = Some (ms ++ more).
Proof.
  intros Hms.
  apply (run_effects_all (fun s' => exists more, stored_media s' = Some (ms ++ more))).
  - exists []. by rewrite app_nil_r.
  - intros s1 c s2 He (more & Hs1).
    destruct (effect_media _ _ _ _ He Hs1) as (more' & Hs2).
    exists (more ++ more'). by rewrite app_assoc.
Qed.

End Growth.

Lemma whitelist_only_grows_witness :
  let s := init disk_in_use in
  let calls := [Is_whitelisted "bob"; Add_to_whitelist "bob"; Add_to_whitelist "alice";
                Delete_event "1"; Add_to_whitelist "dave"] in
  stored_users s = Some [JStr "alice"] /\
  (exists more, stored_users (@run AsciiLower calls s) = Some ([JStr "alice"] ++ more)) /\
  stored_admins (@run AsciiLower calls s) = stored_admins s /\
  stored_users (@run AsciiLower calls s) = Some [JStr "alice"; JStr "bob"; JStr "dave"] /\
  stored_admins (@run AsciiLower calls s) = Some [JStr "carol"].
Proof.
  intros s calls.
  assert (stored_users s = Some [JStr "alice"]) as Hus by (by vm_compute).
  destruct (@whitelist_only_grows AsciiLower s [JStr "alice"] calls Hus)
    as [Hgrow Hadmins].
  split; [exact Hus|]. split; [exact Hgrow|]. split; [exact Hadmins|].
  split; by vm_compute.
Defined.

Lemma media_only_grows_witness :
  let s := init disk_in_use in
  let calls := [Search_media "news"; Add_media [("name", JStr "Radio")];
                Add_to_whitelist "bob"; Search_media "radio"] in
  stored_media s = Some [JDict city_news] /\
  (exists more, stored_media (@run AsciiLower calls s) = Some ([JDict city_news] ++ more)) /\
  stored_media (@run AsciiLower calls s)
    = Some [JDict city_news; JDict [("name", JStr "Radio")]].
Proof.
  intros s calls.
  assert (stored_media s = Some [JDict city_news]) as Hms by (by vm_compute).
  split; [exact Hms|].
  split; [exact (@media_only_grows AsciiLower s [JDict city_news] calls Hms)|].
  by vm_compute.
Defined.

(** ** Cached answers that stay right *)

Lemma effect_answers s c s' u v :
  effect_of s c s' -> cache s' !! answer_key u = Some v ->
  cache s !! answer_key u = Some v \/
  exists b, c = Is_whitelisted u /\ v = JBool b /\ cache s !! answer_key u = None /\
            is_whitelisted u s = (Ok (JBool b), s').
Proof.
  destruct (answer_key_fresh u) as (H0 & H1 & H2).
  intros He Hv. destruct He; unfold rewrite_doc, fill_cache in Hv; simpl in Hv.
  - by left.
  - left. by rewrite lookup_delete_ne in Hv.
  - destruct (decide (u0 = u)) as [->|Hne].
    + rewrite lookup_insert_eq in Hv. simplify_eq. right. eauto.
    + left. rewrite lookup_insert_ne in Hv; [done|].
      intros Heq. by apply whitelist_key_inj in Heq.
  - left. by rewrite lookup_delete_ne in Hv.
  - left. by rewrite lookup_insert_ne in Hv.
  - left. by rewrite lookup_delete_ne in Hv.
  - left. by rewrite lookup_delete_ne in Hv.
  - left. by rewrite lookup_insert_ne in Hv.
Qed.

Lemma effect_grants s c s' : effect_of s c s' -> grants_backed s -> grants_backed s'.
Proof.
  intros He Hs u us' ads Hc Hus Hads.
  rewrite (effect_admins _ _ _ He) in Hads.
  destruct (effect_users _ _ _ _ He Hus) as (us & Hus0 & Hgrow).
  assert (JStr u ∈ us \/ JStr u ∈ ads -> JStr u ∈ us' \/ JStr u ∈ ads) as Hmono.
  { intros [Hin|Hin]; [|by right]. left.
    destruct Hgrow as [->|(u' & ->)]; [done|]. apply elem_of_app. by left. }
  destruct (effect_answers _ _ _ _ _ He Hc) as [Hold|(b & -> & Hb & Hnone & Hw)].
  - apply Hmono. by eapply Hs.
  - apply Hmono. simplify_eq.
    rewrite (is_whitelisted_miss u s us ads Hnone Hus0 Hads) in Hw. simpl in Hw.
    assert (existsb (Py.eq_str u) us || existsb (Py.eq_str u) ads = true) as Hor
      by congruence.
    apply orb_true_iff in Hor as [Hin|Hin]; apply existsb_eq_str in Hin; eauto.
Qed.

Section Answers.
Context `{StrLower}.

(** X6.  A True from [is_whitelisted] is never out of date: in a process
    that has made any calls on the store, when the whitelist document
    holds a users list and an admins list and [is_whitelisted u] returns
    True, [u] is on one of the two lists. *)
Theorem true_answers_are_backed disk calls u us ads :
  let s := run calls (init disk) in
  stored_users s = Some us ->
  stored_admins s = Some ads ->
  fst (is_whitelisted u s) = Ok (JBool true) ->
  JStr u ∈ us \/ JStr u ∈ ads.
Proof.
  intros s Hus Hads Hw.
  assert (grants_backed s) as Hback.
  { apply run_effects_all; [|intros s1 c s2; apply effect_grants].
    intros u' us' ads' Hc. simpl in Hc. by rewrite lookup_empty in Hc. }
  destruct (cache s !! answer_key u) as [v|] eqn:Hc.
  - rewrite (is_whitelisted_hit u s v Hc) in Hw. simpl in Hw. simplify_eq.
    by eapply Hback.
  - rewrite (is_whitelisted_miss u s us ads Hc Hus Hads) in Hw. simpl in Hw.
    assert (existsb (Py.eq_str u) us || existsb (Py.eq_str u) ads = true) as Hor
      by congruence.
    apply orb_true_iff in Hor as [Hin|Hin]; apply existsb_eq_str in Hin; eauto.
Qed.

End Answers.

Lemma true_answers_are_backed_witness :
  let s := @run AsciiLower [Add_to_whitelist "alice"; Is_whitelisted "alice"] (init ∅) in
  stored_users s = Some [JStr "alice"] /\
  stored_admins s = Some [] /\
  fst (is_whitelisted "alice" s) = Ok (JBool true) /\
  (JStr "alice" ∈ [JStr "alice"] \/ JStr "alice" ∈ ([] : list json)).
Proof.
  intros s.
  assert (stored_users s = Some [JStr "alice"]) as Hus by (by vm_compute).
  assert (stored_admins s = Some []) as Hads by (by vm_compute).
  assert (fst (is_whitelisted "alice" s) = Ok (JBool true)) as Hw by (by vm_compute).
  split; [exact Hus|]. split; [exact Hads|]. split; [exact Hw|].
  exact (@true_answers_are_backed AsciiLower ∅
           [Add_to_whitelist "alice"; Is_whitelisted "alice"] "alice"
           [JStr "alice"] [] Hus Hads Hw).
Defined.

(** ** Restarting *)

Lemma restart_stored path key s l :
  stored path key s = Some l -> stored path key (restart s) = Some l.
Proof.
  intros (kv & Hf & Hk)%stored_Some. apply stored_Some. exists kv. split; [|done].
  unfold restart. by rewrite init_lookup, Hf.
Qed.

(** X7.  A restart drops every cached answer: on the files a process
    left, with a users list and an admins list in the whitelist
    document, the first [is_whitelisted u] of the new process returns
    True exactly when [u] is on one of the two lists, whatever the old
    process had cached; the lists themselves are kept. *)
Theorem restart_forgets_answers s u us ads :
  stored_users s = Some us ->
  stored_admins s = Some ads ->
  stored_users (restart s) = Some us /\
  stored_admins (restart s) = Some ads /\
  fst (is_whitelisted u (restart s)) =
    Ok (JBool (existsb (Py.eq_str u) us || existsb (Py.eq_str u) ads)) /\
  (fst (is_whitelisted u (restart s)) = Ok (JBool true) <->
   JStr u ∈ us \/ JStr u ∈ ads).
Proof.
  intros Hus Hads.
  pose proof (restart_stored _ _ _ _ Hus) as Hus'.
  pose proof (restart_stored _ _ _ _ Hads) as Hads'.
  split; [done|]. split; [done|].
  rewrite (is_whitelisted_miss u (restart s) us ads); [|done|done|done].
  simpl. split; [done|].
  rewrite <- !existsb_eq_str, <- orb_true_iff.
  split; [congruence|by intros ->].
Qed.

Lemma restart_forgets_answers_witness :
  let s := snd (add_to_whitelist "alice" (snd (is_whitelisted "alice" (init ∅)))) in
  stored_users s = Some [JStr "alice"] /\
  stored_admins s = Some [] /\
  fst (is_whitelisted "alice" s) = Ok (JBool false) /\
  fst (is_whitelisted "alice" (restart s)) = Ok (JBool true).
Proof.
  intros s.
  assert (stored_users s = Some [JStr "alice"]) as Hus by (by vm_compute).
  assert (stored_admins s = Some []) as Hads by (by vm_compute).
  split; [exact Hus|]. split; [exact Hads|]. split; [by vm_compute|].
  destruct (restart_forgets_answers s "alice" [JStr "alice"] [] Hus Hads)
    as (_ & _ & Hw & _).
  exact Hw.
Defined.

(** ** Ids while nothing is deleted *)

Lemma numbered_snoc evs e now :
  numbered evs -> numbered (evs ++ [JDict (stamped e now (length evs))]).
Proof.
  intros Hn i x Hi.
  destruct (decide (i < length evs)%nat) as [Hlt|Hge].
  - rewrite lookup_app_l in Hi by done. by apply Hn.
  - pose proof (lookup_lt_Some _ _ _ Hi) as Hlen.
    rewrite length_app in Hlen. simpl in Hlen.
    assert (i = length evs) as -> by lia.
    rewrite lookup_app_r in Hi by lia. rewrite Nat.sub_diag in Hi.
    simpl in Hi. simplify_eq. apply stamped_id.
Qed.

Lemma effect_numbered s c s' evs :
  is_delete c = false ->
  effect_of s c s' -> stored_events s = Some evs -> numbered evs ->
  exists more, stored_events s' = Some (evs ++ more) /\ numbered (evs ++ more).
Proof.
  unfold stored_events. intros Hc He Hev Hn.
  assert (numbered (evs ++ [])) as Hn0 by (by rewrite app_nil_r).
  destruct He; try discriminate.
  - exists []. by rewrite app_nil_r.
  - rewrite stored_rewrite_other_path by done. exists []. by rewrite app_nil_r.
  - rewrite stored_fill_cache. exists []. by rewrite app_nil_r.
  - rewrite stored_rewrite_same.
    apply stored_Some in Hev as (kv' & ? & ?).
    assert (evs0 = evs) as -> by congruence.
    eexists. split; [done|]. by apply numbered_snoc.
  - rewrite stored_fill_cache. exists []. by rewrite app_nil_r.
  - rewrite stored_rewrite_other_path by done. exists []. by rewrite app_nil_r.
  - rewrite stored_fill_cache. exists []. by rewrite app_nil_r.
Qed.

Section Ids.
Context `{StrLower}.

(** X8.  As long as [delete_event] is not called, ids stay unique: from
    a collection whose record at index [i] carries the decimal of
    [i + 1] (an empty one at first), any calls other than deletions
    leave such a collection, the earlier one with records added at the
    end, and no two of its records carry the same id. *)
Theorem ids_distinct_without_deletes s evs calls :
  stored_events s = Some evs ->
  numbered evs ->
  forallb (fun c => negb (is_delete c)) calls = true ->
  exists more,
    stored_events (run calls s) = Some (evs ++ more) /\
    numbered (evs ++ more) /\
    forall i j x y,
      (evs ++ more) !! i = Some x -> (evs ++ more) !! j = Some y ->
      Py.getitem x "id" = Py.getitem y "id" -> i = j.
Proof.
  intros Hev Hn Hok.
  assert (exists more, stored_events (run calls s) = Some (evs ++ more) /\
                       numbered (evs ++ more)) as (more & Hst & Hnum).
  { apply (run_effects
             (fun s' => exists more, stored_events s' = Some (evs ++ more) /\
                                     numbered (evs ++ more))
             (fun c => negb (is_delete c))); [|done|].
    - exists []. by rewrite app_nil_r.
    - intros s1 c s2 Hc He (more & Hs1 & Hn1).
      apply negb_true_iff in Hc.
      destruct (effect_numbered _ _ _ _ Hc He Hs1 Hn1) as (more' & Hs2 & Hn2).
      exists (more ++ more'). by rewrite app_assoc. }
  exists more. split; [done|]. split; [done|].
  intros i j x y Hi Hj Hid.
  rewrite (Hnum i x Hi), (Hnum j y Hj) in Hid.
  assert (Py.str (Z.of_nat i + 1) = Py.str (Z.of_nat j + 1)) as Heq by congruence.
  apply (inj pretty) in Heq. lia.
Qed.

End Ids.

Lemma ids_distinct_without_deletes_witness :
  stored_events (init ∅) = Some [] /\
  numbered [] /\
  exists more,
    stored_events
      (@run AsciiLower [Add_event [("title", JStr "a")] "t1"; Get_events;
                        Add_event [("title", JStr "b")] "t2"] (init ∅))
      = Some ([] ++ more) /\
    numbered ([] ++ more).
Proof.
  assert (stored_events (init ∅) = Some []) as Hev by (by vm_compute).
  assert (numbered []) as Hn by (intros i x Hi; by rewrite lookup_nil in Hi).
  split; [exact Hev|]. split; [exact Hn|].
  destruct (@ids_distinct_without_deletes AsciiLower (init ∅) []
              [Add_event [("title", JStr "a")] "t1"; Get_events;
               Add_event [("title", JStr "b")] "t2"] Hev Hn eq_refl)
    as (more & H1 & H2 & _).
  exists more. split; [exact H1|exact H2].
Defined.

(** ** Adding and finding media *)

Lemma prefix_refl q : String.prefix q q = true.
Proof.
  induction q as [|c q IH]; simpl; [done|].
  by destruct (Ascii.ascii_dec c c).
Qed.

Lemma str_in_refl q : Py.str_in q q = true.
Proof.
  destruct q as [|c q].
  - done.
  - rewrite str_in_cons, prefix_refl. done.
Qed.

Lemma add_media_stored m s kv ms :
  fs s !! media_file = Some (Parsed (JDict kv)) ->
  Py.dict_get "media" kv = Some (JList ms) ->
  add_media m s =
    (Ok tt, rewrite_doc media_file "media" "media" kv (ms ++ [JDict m]) s).
Proof.
  intros Hf Hk. unfold add_media. mrun. rewrite Hf. simpl. rewrite Hk. done.
Qed.

Section AddMedia.
Context `{StrLower}.

Lemma search_after_append s kv ms m name :
  Forall is_media ms ->
  is_media (JDict m) ->
  Py.dict_get "name" m = Some (JStr name) ->
  fst (search_media name
         (rewrite_doc media_file "media" "media" kv (ms ++ [JDict m]) s))
    = Ok (List.filter (hit name) ms ++ [JDict m]).
Proof.
  intros Hwf Hm Hname.
  rewrite (search_media_miss name _ (Py.dict_set "media" (JList (ms ++ [JDict m])) kv)
             (ms ++ [JDict m])).
  - simpl. rewrite (comprehension_total _ (hit name)).
    + rewrite List.filter_app. simpl.
      assert (hit name (JDict m) = true) as ->; [|done].
      unfold hit, occurs_ci, field. simpl. rewrite Hname.
      by rewrite str_in_refl.
    + apply Forall_app. split.
      * eapply Forall_impl; [exact Hwf|]. intros x. apply media_matches_is_media.
      * constructor; [|done]. by apply media_matches_is_media.
  - unfold rewrite_doc. simpl. apply lookup_delete_eq.
  - unfold rewrite_doc. simpl. apply lookup_insert_eq.
  - apply dict_get_set_eq.
Qed.

(** X9.  An entry that was added is found under its own name: on a media
    collection [ms] of well-formed entries, whatever the cache holds,
    [add_media] of a well-formed entry named [name] returns, the
    collection on disk is [ms] followed by the entry, and
    [search_media name] then returns the matches among [ms] followed by
    the new entry. *)
Theorem added_media_is_found s ms m name :
  stored_media s = Some ms ->
  Forall is_media ms ->
  is_media (JDict m) ->
  Py.dict_get "name" m = Some (JStr name) ->
  exists s1,
    add_media m s = (Ok tt, s1) /\
    stored_media s1 = Some (ms ++ [JDict m]) /\
    fst (search_media name s1) = Ok (List.filter (hit name) ms ++ [JDict m]).
Proof.
  intros Hms Hwf Hm Hname.
  pose proof Hms as (kv & Hf & Hk)%stored_Some.
  exists (rewrite_doc media_file "media" "media" kv (ms ++ [JDict m]) s).
  split; [by apply add_media_stored|].
  split; [apply stored_rewrite_same|].
  by apply search_after_append.
Qed.

End AddMedia.

Lemma added_media_is_found_witness :
  stored_media (init ∅) = Some [] /\
  Forall is_media [] /\
  is_media (JDict city_news) /\
  Py.dict_get "name" city_news = Some (JStr "City News") /\
  exists s1,
    add_media city_news (init ∅) = (Ok tt, s1) /\
    fst (@search_media AsciiLower "City News" s1) = Ok [JDict city_news].
Proof.
  assert (stored_media (init ∅) = Some []) as Hms by (by vm_compute).
  assert (is_media (JDict city_news)) as Hm.
  { eexists. split; [reflexivity|].
    split; intros v Hv; vm_compute in Hv; simplify_eq; eauto. }
  split; [exact Hms|]. split; [constructor|]. split; [exact Hm|].
  split; [reflexivity|].
  destruct (@added_media_is_found AsciiLower (init ∅) [] city_news "City News"
              Hms (Forall_nil_2 _) Hm eq_refl) as (s1 & H1 & _ & H2).
  exists s1. split; [exact H1|exact H2].
Defined.

(** ** Events read back from the cache *)

Section EventReads.
Context `{StrLower}.

(** X10.  The events cache never falls behind the file: in a process
    that has made any calls on the store, whatever the events document
    holds under "events" is what [get_events] returns, it writes no
    file, and a second [get_events] returns the same without changing
    the store. *)
Theorem get_events_reads_disk disk calls kv v :
  let s := run calls (init disk) in
  fs s !! events_file = Some (Parsed (JDict kv)) ->
  Py.dict_get "events" kv = Some v ->
  exists s',
    get_events s = (Ok v, s') /\
    fs s' = fs s /\
    get_events s' = (Ok v, s').
Proof.
  intros s Hf Hk.
  pose proof (run_coherent calls disk) as [Hco _]. fold s in Hco.
  destruct (cache s !! "events") as [v'|] eqn:Hc.
  - destruct (Hco v' eq_refl) as (kv' & Hf' & Hk').
    assert (v' = v) as -> by congruence.
    exists s. rewrite (get_events_hit s v Hc). done.
  - exists (fill_cache "events" v s).
    rewrite (get_events_miss s kv v Hc Hf Hk). split; [done|]. split; [done|].
    apply get_events_hit. simpl. apply lookup_insert_eq.
Qed.

End EventReads.

Lemma get_events_reads_disk_witness :
  let s := @run AsciiLower [Get_events; Add_event [("title", JStr "a")] "t1"] (init ∅) in
  let e := JDict [("title", JStr "a"); ("id", JStr "1"); ("created_at", JStr "t1")] in
  fs s !! events_file = Some (Parsed (JDict [("events", JList [e])])) /\
  Py.dict_get "events" [("events", JList [e])] = Some (JList [e]) /\
  exists s', get_events s = (Ok (JList [e]), s').
Proof.
  intros s e.
  assert (fs s !! events_file = Some (Parsed (JDict [("events", JList [e])]))) as Hf
    by (by vm_compute).
  split; [exact Hf|]. split; [reflexivity|].
  destruct (@get_events_reads_disk AsciiLower ∅
              [Get_events; Add_event [("title", JStr "a")] "t1"]
              [("events", JList [e])] (JList [e]) Hf eq_refl) as (s' & H1 & _).
  exists s'. exact H1.
Defined.

(** ** The guard on an unreadable whitelist *)

(** X11.  With the whitelist file missing or not JSON and no answer
    cached for the sender: an administrator's message still reaches the
    handler, since no lookup is made for it; for every other sender the
    lookup raises KeyError, so the handler does not run, no denial is
    sent, and the process is as it was. *)
Theorem guard_on_unreadable_whitelist ADMIN_IDS message user handler w :
  from_user message = Some user ->
  (fs (db w) !! whitelist_file = None \/ fs (db w) !! whitelist_file = Some Garbage) ->
  cache (db w) !! answer_key (username_or_id user) = None ->
  (user_id user ∈ ADMIN_IDS ->
   check_access_middleware ADMIN_IDS message handler w = handler w) /\
  (user_id user ∉ ADMIN_IDS ->
   check_access_middleware ADMIN_IDS message handler w = (Raise (KeyError "users"), w)).
Proof.
  intros Hu Hf Hc. split; [by apply guard_admin|].
  intros Hadm. unfold check_access_middleware. rewrite Hu.
  rewrite bool_decide_eq_false_2 by done.
  assert (is_whitelisted (username_or_id user) (db w)
          = (Raise (KeyError "users"), db w)) as Hw.
  { unfold is_whitelisted. mrun. unfold answer_key in Hc. rewrite Hc.
    by destruct Hf as [-> | ->]. }
  unfold mbind, M_bind, with_db. rewrite Hw. by destruct w.
Qed.

Lemma guard_on_unreadable_whitelist_witness :
  let w := {| db := init {[ whitelist_file := Garbage ]}; storage := ∅; sent := [] |} in
  from_user (says bob "/events") = Some bob /\
  (fs (db w) !! whitelist_file = None \/ fs (db w) !! whitelist_file = Some Garbage) /\
  cache (db w) !! answer_key (username_or_id bob) = None /\
  check_access_middleware [100] (says bob "/events") store_media w
    = (Raise (KeyError "users"), w) /\
  check_access_middleware [5] (says bob "/events") store_media w = store_media w.
Proof.
  intros w.
  assert (fs (db w) !! whitelist_file = None \/
          fs (db w) !! whitelist_file = Some Garbage) as Hf by (right; by vm_compute).
  assert (cache (db w) !! answer_key (username_or_id bob) = None) as Hc
    by (by vm_compute).
  split; [reflexivity|]. split; [exact Hf|]. split; [exact Hc|]. split.
  - destruct (guard_on_unreadable_whitelist [100] (says bob "/events") bob
                store_media w eq_refl Hf Hc) as [_ Hother].
    apply Hother. intros Hin%list_elem_of_singleton. discriminate.
  - destruct (guard_on_unreadable_whitelist [5] (says bob "/events") bob
                store_media w eq_refl Hf Hc) as [Hadmin _].
    apply Hadmin. apply list_elem_of_here.
Defined.

(** * The command handlers *)

Example split_examples :
  @str_split AsciiSplit "/add user @alice" = ["/add"; "user"; "@alice"] /\
  @str_split_max AsciiSplit 2 "/add_media City  News daily paper "
    = ["/add_media"; "City"; "News daily paper "] /\
  @str_split_max AsciiSplit 2 " /add_media  City " = ["/add_media"; "City"] /\
  without_at "@al@ice" = "alice".
Proof. vm_compute. done. Qed.

Section Commands.
Context `{StrSplit}.

(** X12.  /add and /add_media are for administrators only: for a sender
    whose id is not in ADMIN_IDS each of the two handlers sends the
    refusal and nothing else happens, whatever the text of the message;
    the store and the sessions are as before. *)
Theorem admin_commands_refuse_others ADMIN_IDS now message user w :
  from_user message = Some user ->
  user_id user ∉ ADMIN_IDS ->
  Bot.add_to_whitelist ADMIN_IDS message w
    = (Ok tt, replied message Bot.ADMINS_ONLY w) /\
  Bot.add_media_command ADMIN_IDS now message w
    = (Ok tt, replied message Bot.ADMINS_ONLY w).
Proof.
  intros Hu Hadm.
  unfold Bot.add_to_whitelist, Bot.add_media_command. rewrite Hu.
  by rewrite bool_decide_eq_false_2.
Qed.

Lemma without_at_clean s : Py.str_in "@" (without_at s) = false.
Proof.
  induction s as [|c s IH]; [done|]. simpl.
  destruct (Ascii.eqb_spec c "@") as [->|Hne]; [done|].
  rewrite str_in_cons, IH, orb_false_r.
  destruct (String.prefix "@" (String c (without_at s))) eqn:E; [|done].
  apply prefix_spec in E as [b Hb]. rewrite app_cons in Hb. congruence.
Qed.

(** X13.  /add by an administrator, with a text of at least three
    words, whitelists the third word with every "@" removed, whatever
    the second word is: when the name is new it is appended to the
    users list and the reply says added; when it is already listed the
    store stays as it is and the reply says so.  Once added, and with no
    answer cached for that name, a later message from a sender with
    that handle passes the guard. *)
Theorem add_command_whitelists_handle ADMIN_IDS message user w t c k arg rest us ads :
  from_user message = Some user ->
  user_id user ∈ ADMIN_IDS ->
  text message = Some t ->
  str_split t = c :: k :: arg :: rest ->
  stored_users (db w) = Some us ->
  stored_admins (db w) = Some ads ->
  let name := without_at arg in
  Py.str_in "@" name = false /\
  exists w',
    Bot.add_to_whitelist ADMIN_IDS message w = (Ok tt, w') /\
    storage w' = storage w /\
    (JStr name ∈ us ->
     w' = replied message ("ℹ️ Пользователь @" +:+ name +:+ " уже в whitelist.") w) /\
    (JStr name ∉ us ->
     stored_users (db w') = Some (us ++ [JStr name]) /\
     sent w' = sent w ++
       [(chat_id message, "✅ Пользователь @" +:+ name +:+ " добавлен в whitelist!")]) /\
    (cache (db w) !! answer_key name = None ->
     forall later sender handler,
       from_user later = Some sender ->
       username_or_id sender = name ->
       exists d, fs d = fs (db w') /\
         check_access_middleware ADMIN_IDS later handler w' = handler (set_db d w')).
Proof.
  intros Hu Hadm Ht Hsplit Hus Hads name.
  split; [apply without_at_clean|].
  pose proof Hus as (kv & Hf & Hk)%stored_Some.
  unfold Bot.add_to_whitelist. rewrite Hu, Ht, Hsplit.
  rewrite bool_decide_eq_true_2 by done. simpl. fold name.
  unfold mbind, M_bind, with_db.
  rewrite (add_to_whitelist_stored name (db w) kv us Hf Hk).
  assert (forall w' : World,
            (exists d, is_whitelisted name (db w') = (Ok (JBool true), d) /\
                       fs d = fs (db w')) ->
            forall later sender handler,
              from_user later = Some sender ->
              username_or_id sender = name ->
              exists d, fs d = fs (db w') /\
                check_access_middleware ADMIN_IDS later handler w'
                  = handler (set_db d w')) as Hpass.
  { intros w' (d & Hw & Hfd) later sender handler Hl Hs.
    destruct (decide (user_id sender ∈ ADMIN_IDS)) as [Ha|Ha].
    - exists (db w'). split; [done|].
      rewrite (guard_admin _ _ _ _ _ Hl Ha). by destruct w'.
    - exists d. split; [done|]. rewrite <- Hs in Hw.
      by rewrite (guard_lookup _ _ _ _ _ _ d Hl Ha Hw). }
  destruct (existsb (Py.eq_str name) us) eqn:E.
  - eexists. split; [reflexivity|]. split; [done|].
    split; [intros _; by destruct w|]. split.
    { intros Hn. by apply existsb_eq_str_false in Hn; congruence. }
    intros Hc. apply Hpass. simpl.
    rewrite (is_whitelisted_miss name (db w) us ads Hc Hus Hads). simpl.
    rewrite E. simpl. eauto.
  - apply existsb_eq_str_false in E.
    eexists. split; [reflexivity|]. split; [done|].
    split; [done|]. split.
    { intros _. split; [apply stored_rewrite_same|done]. }
    intros Hc. apply Hpass. simpl.
    destruct (answer_key_fresh name) as (Hne & _).
    rewrite (is_whitelisted_miss name _ (us ++ [JStr name]) ads).
    + simpl. rewrite existsb_app. simpl. rewrite String.eqb_refl.
      rewrite orb_true_r. simpl. eauto.
    + unfold rewrite_doc. simpl. by rewrite lookup_delete_ne.
    + apply stored_rewrite_same.
    + unfold stored_admins. by rewrite stored_rewrite_other_key.
Qed.

(** X14.  /add_media by an administrator, with a text that splits into
    a command, a name and a description, appends one entry to the media
    collection: the name, the description, the sender's handle (the
    numeric id as text when there is none) and the clock reading.  The
    entry is well formed, so a collection of well-formed entries stays
    one, and a search for the name returns the matches among the older
    entries followed by the new entry. *)
Theorem add_media_command_stores_entry `{StrLower} ADMIN_IDS now message user w t
    c name description rest ms :
  from_user message = Some user ->
  user_id user ∈ ADMIN_IDS ->
  text message = Some t ->
  str_split_max 2 t = c :: name :: description :: rest ->
  stored_media (db w) = Some ms ->
  Forall is_media ms ->
  let entry :=
    JDict [("name", JStr name); ("description", JStr description);
           ("added_by", JStr (username_or_id user)); ("added_at", JStr now)] in
  exists w',
    Bot.add_media_command ADMIN_IDS now message w = (Ok tt, w') /\
    stored_media (db w') = Some (ms ++ [entry]) /\
    Forall is_media (ms ++ [entry]) /\
    storage w' = storage w /\
    sent w' = sent w ++ [(chat_id message, "✅ СМИ '" +:+ name +:+ "' добавлено в базу!")] /\
    fst (search_media name (db w')) = Ok (List.filter (hit name) ms ++ [entry]).
Proof.
  intros Hu Hadm Ht Hsplit Hms Hwf entry.
  assert (is_media entry) as Hentry.
  { eexists. split; [reflexivity|].
    split; intros v Hv; simpl in Hv; simplify_eq; eauto. }
  pose proof Hms as (kv & Hf & Hk)%stored_Some.
  unfold Bot.add_media_command. rewrite Hu, Ht, Hsplit.
  rewrite bool_decide_eq_true_2 by done. simpl.
  unfold mbind, M_bind, with_db.
  rewrite (add_media_stored _ (db w) kv ms Hf Hk).
  eexists. split; [reflexivity|]. simpl.
  split; [apply stored_rewrite_same|].
  split; [apply Forall_app; split; [done|by constructor]|].
  split; [done|]. split; [done|].
  by apply search_after_append.
Qed.

(** X15.  /delete_event has no administrator check and does not look at
    the sender at all: for any message whose text splits into at least
    two words, from anyone or from no one, the events carrying the
    second word as id are removed and the reply says deleted when there
    was one, not found when there was none; with fewer than two words
    the usage line is sent and nothing else happens. *)
Theorem delete_command_is_open_to_all message w t evs :
  text message = Some t ->
  stored_events (db w) = Some evs ->
  Forall is_event evs ->
  (forall c event_id rest,
     str_split t = c :: event_id :: rest ->
     exists w',
       Bot.delete_event_command message w = (Ok tt, w') /\
       stored_events (db w') =
         Some (List.filter (fun e => negb (carries event_id e)) evs) /\
       storage w' = storage w /\
       sent w' = sent w ++
         [(chat_id message,
           if existsb (carries event_id) evs
           then "✅ Мероприятие " +:+ event_id +:+ " удалено!"
           else "❌ Мероприятие с ID " +:+ event_id +:+ " не найдено.")]) /\
  ((length (str_split t) < 2)%nat ->
   Bot.delete_event_command message w =
     (Ok tt, replied message "Использование: /delete_event <id_мероприятия>" w)).
Proof.
  intros Ht Hev Hwf.
  pose proof Hev as (kv & Hf & Hk)%stored_Some.
  split.
  - intros c event_id rest Hsplit.
    unfold Bot.delete_event_command. rewrite Ht, Hsplit.
    unfold mbind, M_bind, with_db.
    rewrite (delete_event_stored event_id (db w) kv evs Hf Hk Hwf).
    destruct (existsb (carries event_id) evs) eqn:E.
    + eexists. split; [reflexivity|]. simpl.
      split; [apply stored_rewrite_same|done].
    + eexists. split; [reflexivity|]. simpl.
      split; [|done]. by rewrite filter_carries_none.
  - intros Hlen. unfold Bot.delete_event_command. rewrite Ht.
    destruct (str_split t) as [|c [|event_id rest]]; simpl in Hlen; [done|done|lia].
Qed.

End Commands.

(** ** /start behind the guard *)

Lemma is_whitelisted_again u s v d :
  is_whitelisted u s = (Ok v, d) -> is_whitelisted u d = (Ok v, d).
Proof.
  intros Hw.
  destruct (is_whitelisted_effect u s) as [(r & Hr)|(b & _ & _ & Hr)];
    rewrite Hr in Hw; simplify_eq.
  - done.
  - apply is_whitelisted_hit. simpl. apply lookup_insert_eq.
Qed.

(** X16.  /start behind the guard greets by role and never sends its
    own locked-out greeting: an administrator gets the administrator
    greeting; any other sender whose lookup returns gets the
    access-confirmed greeting when the answer is true, and only the
    guard's denial when it is not.  The second lookup, made by the
    handler, repeats the guard's answer and changes nothing. *)
Theorem start_behind_guard ADMIN_IDS message user w :
  from_user message = Some user ->
  let start := Bot.start_command ADMIN_IDS message in
  let greeting g := g +:+ nl +:+ nl +:+ Bot.COMMANDS in
  (user_id user ∈ ADMIN_IDS ->
   check_access_middleware ADMIN_IDS message start w
     = (Ok tt, replied message (greeting Bot.WELCOME_ADMIN) w)) /\
  (user_id user ∉ ADMIN_IDS ->
   forall v d, is_whitelisted (username_or_id user) (db w) = (Ok v, d) ->
     check_access_middleware ADMIN_IDS message start w
       = (Ok tt, if Py.truthy v
                 then replied message (greeting Bot.WELCOME_USER) (set_db d w)
                 else turned_away message d w) /\
     sent (snd (check_access_middleware ADMIN_IDS message start w))
       <> sent w ++ [(chat_id message, greeting Bot.WELCOME_LOCKED)]).
Proof.
  intros Hu start greeting. split.
  - intros Hadm. rewrite (guard_admin _ _ _ _ _ Hu Hadm).
    unfold start, Bot.start_command. rewrite Hu.
    by rewrite bool_decide_eq_true_2.
  - intros Hadm v d Hw.
    assert (check_access_middleware ADMIN_IDS message start w
            = (Ok tt, if Py.truthy v
                      then replied message (greeting Bot.WELCOME_USER) (set_db d w)
                      else turned_away message d w)) as Hout.
    { rewrite (guard_lookup _ _ _ _ _ v d Hu Hadm Hw).
      destruct (Py.truthy v) eqn:Ht; [|done].
      unfold start, Bot.start_command. rewrite Hu.
      rewrite bool_decide_eq_false_2 by done.
      unfold mbind, M_bind, with_db. simpl.
      rewrite (is_whitelisted_again _ _ _ _ Hw). by rewrite Ht. }
    split; [exact Hout|]. rewrite Hout.
    destruct (Py.truthy v); simpl; intros Heq; apply app_inv_head in Heq;
      vm_compute in Heq; discriminate.
Qed.

Lemma start_behind_guard_witness :
  from_user (says bob "/start") = Some bob /\
  check_access_middleware [100] (says bob "/start")
    (Bot.start_command [100] (says bob "/start")) fresh_world
  = (Ok tt, turned_away (says bob "/start")
              (snd (is_whitelisted "bob" (init ∅))) fresh_world) /\
  check_access_middleware [5] (says bob "/start")
    (Bot.start_command [5] (says bob "/start")) fresh_world
  = (Ok tt, replied (says bob "/start")
              (Bot.WELCOME_ADMIN +:+ nl +:+ nl +:+ Bot.COMMANDS) fresh_world).
Proof.
  split; [reflexivity|]. split.
  - destruct (start_behind_guard [100] (says bob "/start") bob fresh_world eq_refl)
      as [_ Hother].
    assert (user_id bob ∉ [100]) as Hadm.
    { intros Hin%list_elem_of_singleton. discriminate. }
    destruct (Hother Hadm (JBool false) (snd (is_whitelisted "bob" (init ∅))))
      as [Hout _]; [by vm_compute|exact Hout].
  - destruct (start_behind_guard [5] (says bob "/start") bob fresh_world eq_refl)
      as [Hadmin _].
    apply Hadmin. apply list_elem_of_here.
Defined.

(** ** Fields left in a session *)

(** X17.  The event conversation commits whatever else the session
    holds: /add_event does not reset the session's data, so a field
    left there by an abandoned conversation, under a key the event
    steps do not write, is stored with the new event. *)
Theorem leftover_fields_are_committed now m0 m1 m2 m3 state user w0 evs k v :
  from_user m3 = Some user ->
  stored_events (db w0) = Some evs ->
  Py.dict_get k (scratch (session_of state w0)) = Some v ->
  k ∉ event_keys ->
  let w1 := snd (start_add_event m0 state w0) in
  let w2 := snd (process_event_title m1 state w1) in
  let w3 := snd (process_event_description m2 state w2) in
  exists record w4,
    process_event_date now m3 state w3 = (Ok tt, w4) /\
    stored_events (db w4) = Some (evs ++ [JDict record]) /\
    Py.dict_get k record = Some v.
Proof.
  intros Hu Hev Hk Hnot w1 w2 w3.
  assert (k <> "title" /\ k <> "description" /\ k <> "date" /\ k <> "creator" /\
          k <> "id" /\ k <> "created_at") as (K1 & K2 & K3 & K4 & K5 & K6).
  { unfold event_keys in Hnot. repeat split; intros ->; apply Hnot;
      repeat (first [apply list_elem_of_here | apply list_elem_of_further]). }
  destruct (start_add_event_run m0 state w0) as (x1 & E1 & D1 & _ & S1).
  assert (w1 = x1) as Hw1 by (unfold w1; by rewrite E1).
  destruct (process_event_title_run m1 state w1) as (x2 & E2 & D2 & _ & S2).
  assert (w2 = x2) as Hw2 by (unfold w2; by rewrite E2).
  destruct (process_event_description_run m2 state w2) as (x3 & E3 & D3 & _ & S3).
  assert (w3 = x3) as Hw3 by (unfold w3; by rewrite E3).
  rewrite <- Hw1 in *. rewrite <- Hw2 in *. rewrite <- Hw3 in *.
  assert (stored_events (db w3) = Some evs) as Hev3 by (by rewrite D3, D2, D1).
  destruct (process_event_date_run now m3 state user w3 evs Hu Hev3)
    as (w4 & E4 & Hst & _).
  eexists _, w4. split; [exact E4|]. split; [exact Hst|].
  rewrite stamped_other by auto.
  rewrite !dict_get_set_ne by auto.
  rewrite S3, dict_get_set_ne by auto. rewrite S2, dict_get_set_ne by auto.
  by rewrite S1.
Qed.

Lemma leftover_fields_are_committed_witness :
  let w0 := snd (process_topic (says alice "sale") alice_chat fresh_world) in
  let w1 := snd (start_add_event (says alice "/add_event") alice_chat w0) in
  let w2 := snd (process_event_title (says alice "Meetup") alice_chat w1) in
  let w3 := snd (process_event_description (says alice "Monthly") alice_chat w2) in
  stored_events (db w0) = Some [] /\
  Py.dict_get "topic" (scratch (session_of alice_chat w0)) = Some (JStr "sale") /\
  ("topic" ∉ event_keys) /\
  exists record w4,
    process_event_date "t1" (says alice "01.01.2030") alice_chat w3 = (Ok tt, w4) /\
    stored_events (db w4) = Some [JDict record] /\
    Py.dict_get "topic" record = Some (JStr "sale").
Proof.
  intros w0 w1 w2 w3.
  assert (stored_events (db w0) = Some []) as Hev by (by vm_compute).
  assert (Py.dict_get "topic" (scratch (session_of alice_chat w0)) = Some (JStr "sale"))
    as Hk by (by vm_compute).
  assert ("topic" ∉ event_keys) as Hnot.
  { unfold event_keys. intros Hin.
    repeat (apply elem_of_cons in Hin as [Hin|Hin]; [discriminate|]).
    by apply not_elem_of_nil in Hin. }
  split; [exact Hev|]. split; [exact Hk|]. split; [exact Hnot|].
  exact (leftover_fields_are_committed "t1" (says alice "/add_event")
           (says alice "Meetup") (says alice "Monthly") (says alice "01.01.2030")
           alice_chat alice w0 [] "topic" (JStr "sale") eq_refl Hev Hk Hnot).
Defined.

(** ** The command theorems at concrete inputs *)

Lemma admin_commands_refuse_others_witness :
  from_user (says bob "/add user @mallory") = Some bob /\
  (user_id bob ∉ [100]) /\
  @Bot.add_to_whitelist AsciiSplit [100] (says bob "/add user @mallory") fresh_world
    = (Ok tt, replied (says bob "/add user @mallory") Bot.ADMINS_ONLY fresh_world).
Proof.
  assert (user_id bob ∉ [100]) as Hadm.
  { intros Hin%list_elem_of_singleton. discriminate. }
  split; [reflexivity|]. split; [exact Hadm|].
  destruct (@admin_commands_refuse_others AsciiSplit [100] "t1"
              (says bob "/add user @mallory") bob fresh_world eq_refl Hadm)
    as [Hadd _].
  exact Hadd.
Defined.

Lemma add_command_whitelists_handle_witness :
  from_user (says root "/add user @alice") = Some root /\
  user_id root ∈ [100] /\
  @str_split AsciiSplit "/add user @alice" = ["/add"; "user"; "@alice"] /\
  stored_users (db fresh_world) = Some [] /\
  stored_admins (db fresh_world) = Some [] /\
  exists w',
    @Bot.add_to_whitelist AsciiSplit [100] (says root "/add user @alice") fresh_world
      = (Ok tt, w') /\
    stored_users (db w') = Some [JStr "alice"] /\
    exists d,
      check_access_middleware [100] (says alice "/events") store_media w'
        = store_media (set_db d w').
Proof.
  assert (user_id root ∈ [100]) as Hadm by apply list_elem_of_here.
  assert (@str_split AsciiSplit "/add user @alice" = ["/add"; "user"; "@alice"])
    as Hsplit by (by vm_compute).
  assert (stored_users (db fresh_world) = Some []) as Hus by (by vm_compute).
  assert (stored_admins (db fresh_world) = Some []) as Hads by (by vm_compute).
  split; [reflexivity|]. split; [exact Hadm|]. split; [exact Hsplit|].
  split; [exact Hus|]. split; [exact Hads|].
  destruct (@add_command_whitelists_handle AsciiSplit [100]
              (says root "/add user @alice") root fresh_world "/add user @alice"
              "/add" "user" "@alice" [] [] [] eq_refl Hadm eq_refl Hsplit Hus Hads)
    as (_ & w' & Hrun & _ & _ & Hnew & Hpass).
  exists w'. split; [exact Hrun|].
  destruct (Hnew (not_elem_of_nil _)) as [Hst _]. split; [exact Hst|].
  destruct (Hpass eq_refl (says alice "/events") alice store_media eq_refl eq_refl)
    as (d & _ & Hguard).
  exists d. exact Hguard.
Defined.

Lemma add_media_command_stores_entry_witness :
  let entry :=
    JDict [("name", JStr "City"); ("description", JStr "News daily");
           ("added_by", JStr "root"); ("added_at", JStr "t1")] in
  from_user (says root "/add_media City News daily") = Some root /\
  user_id root ∈ [100] /\
  @str_split_max AsciiSplit 2 "/add_media City News daily"
    = ["/add_media"; "City"; "News daily"] /\
  stored_media (db fresh_world) = Some [] /\
  Forall is_media [] /\
  exists w',
    @Bot.add_media_command AsciiSplit [100] "t1"
      (says root "/add_media City News daily") fresh_world = (Ok tt, w') /\
    stored_media (db w') = Some [entry] /\
    fst (@search_media AsciiLower "City" (db w')) = Ok [entry].
Proof.
  intros entry.
  assert (user_id root ∈ [100]) as Hadm by apply list_elem_of_here.
  assert (@str_split_max AsciiSplit 2 "/add_media City News daily"
          = ["/add_media"; "City"; "News daily"]) as Hsplit by (by vm_compute).
  assert (stored_media (db fresh_world) = Some []) as Hms by (by vm_compute).
  split; [reflexivity|]. split; [exact Hadm|]. split; [exact Hsplit|].
  split; [exact Hms|]. split; [constructor|].
  destruct (@add_media_command_stores_entry AsciiSplit AsciiLower [100] "t1"
              (says root "/add_media City News daily") root fresh_world
              "/add_media City News daily" "/add_media" "City" "News daily" [] []
              eq_refl Hadm eq_refl Hsplit Hms (Forall_nil_2 _))
    as (w' & Hrun & Hst & _ & _ & _ & Hfind).
  exists w'. split; [exact Hrun|]. split; [exact Hst|exact Hfind].
Defined.

Lemma delete_command_is_open_to_all_witness :
  let e := JDict [("title", JStr "Meetup"); ("id", JStr "1"); ("created_at", JStr "t1")] in
  text (says bob "/delete_event 1") = Some "/delete_event 1" /\
  stored_events (db world_with_event) = Some [e] /\
  Forall is_event [e] /\
  exists w',
    @Bot.delete_event_command AsciiSplit (says bob "/delete_event 1") world_with_event
      = (Ok tt, w') /\
    stored_events (db w') = Some [] /\
    sent w' = [(5, "✅ Мероприятие 1 удалено!")].
Proof.
  intros e.
  assert (stored_events (db world_with_event) = Some [e]) as Hev by (by vm_compute).
  assert (Forall is_event [e]) as Hwf.
  { constructor; [|constructor]. eexists _, _. split; reflexivity. }
  split; [reflexivity|]. split; [exact Hev|]. split; [exact Hwf|].
  destruct (@delete_command_is_open_to_all AsciiSplit (says bob "/delete_event 1")
              world_with_event "/delete_event 1" [e] eq_refl Hev Hwf) as [Hdel _].
  destruct (Hdel "/delete_event" "1" [] ltac:(by vm_compute))
    as (w' & Hrun & Hst & _ & Hsent).
  exists w'. split; [exact Hrun|]. split; [exact Hst|exact Hsent].
Defined.

(** * Further edge behaviour *)

Lemma media_matches_cases `{StrLower} q m :
  media_matches q m = Raise AttributeError \/ exists b, media_matches q m = Ok b.
Proof.
  unfold media_matches.
  destruct (Py.get_or_empty m "name") as [[| | |t| |]|e] eqn:En; eauto;
    try (destruct m; simpl in En; simplify_eq; eauto; fail).
  destruct (Py.str_in q (str_lower t)); [eauto|].
  destruct (Py.get_or_empty m "description") as [[| | |t'| |]|e] eqn:Ed; eauto.
  destruct m; simpl in Ed; simplify_eq; eauto.
Qed.

Lemma comprehension_raises (keep : json -> result bool) e (l : list json) x :
  (forall y, keep y = Raise e \/ exists b, keep y = Ok b) ->
  x ∈ l -> keep x = Raise e ->
  Py.comprehension keep l = Raise e.
Proof.
  intros Hcases Hin Hx. induction l as [|y l IH]; [by apply not_elem_of_nil in Hin|].
  simpl. destruct (Hcases y) as [Hy|[b Hy]]; rewrite Hy; [done|].
  apply elem_of_cons in Hin as [->|Hin]; [congruence|].
  by rewrite IH.
Qed.

Section BadEntries.
Context `{StrLower}.

(** X18.  One entry without a usable name breaks every search: in a
    process that has made any calls on the store, when some entry of
    the media collection is not a dict, or has a name that is not
    text, [search_media] raises AttributeError for every query,
    whatever the other entries are. *)
Theorem search_raises_on_bad_entry disk calls q ms m :
  let s := run calls (init disk) in
  stored_media s = Some ms ->
  m ∈ ms ->
  (forall kv, m <> JDict kv) \/
  (exists kv v, m = JDict kv /\ Py.dict_get "name" kv = Some v /\
                forall t, v <> JStr t) ->
  fst (search_media q s) = Raise AttributeError.
Proof.
  intros s Hms Hin Hbad.
  pose proof (run_coherent calls disk) as Hco. fold s in Hco.
  destruct (search_media_coherent q s ms Hco Hms) as (s' & -> & _). simpl.
  apply (comprehension_raises _ _ _ m); [intros y; apply media_matches_cases|done|].
  unfold media_matches.
  destruct Hbad as [Hnot|(kv & v & -> & Hv & Hstr)].
  - destruct m; try done. by destruct (Hnot kv).
  - simpl. rewrite Hv. simpl. destruct v; try done. by destruct (Hstr s0).
Qed.

(** X19.  A cached whitelist answer lasts as long as the process: no
    call evicts or replaces it, so after any calls [is_whitelisted u]
    still returns the answer first cached for [u]. *)
Theorem cached_answers_are_permanent s u v calls :
  cache s !! answer_key u = Some v ->
  cache (run calls s) !! answer_key u = Some v /\
  fst (is_whitelisted u (run calls s)) = Ok v.
Proof.
  intros Hc.
  assert (cache (run calls s) !! answer_key u = Some v) as Hkept.
  { apply (run_effects_all (fun s' => cache s' !! answer_key u = Some v)); [done|].
    intros s1 c s2 He H1.
    destruct (answer_key_fresh u) as (H0 & H2 & H3).
    destruct He; unfold rewrite_doc, fill_cache; simpl.
    - done.
    - by rewrite lookup_delete_ne.
    - destruct (decide (u0 = u)) as [->|Hne]; [congruence|].
      rewrite lookup_insert_ne; [done|].
      intros Heq. by apply whitelist_key_inj in Heq.
    - by rewrite lookup_delete_ne.
    - by rewrite lookup_insert_ne.
    - by rewrite lookup_delete_ne.
    - by rewrite lookup_delete_ne.
    - by rewrite lookup_insert_ne. }
  split; [done|]. by rewrite (is_whitelisted_hit u _ v Hkept).
Qed.

End BadEntries.

Lemma search_raises_on_bad_entry_witness :
  let bad := JDict [("name", JInt 7)] in
  let s := @run AsciiLower [Add_media city_news; Add_media [("name", JInt 7)]] (init ∅) in
  stored_media s = Some [JDict city_news; bad] /\
  bad ∈ [JDict city_news; bad] /\
  fst (@search_media AsciiLower "news" s) = Raise AttributeError.
Proof.
  intros bad s.
  assert (stored_media s = Some [JDict city_news; bad]) as Hms by (by vm_compute).
  assert (bad ∈ [JDict city_news; bad]) as Hin
    by (apply list_elem_of_further, list_elem_of_here).
  split; [exact Hms|]. split; [exact Hin|].
  apply (@search_raises_on_bad_entry AsciiLower ∅
           [Add_media city_news; Add_media [("name", JInt 7)]] "news"
           [JDict city_news; bad] bad Hms Hin).
  right. exists [("name", JInt 7)], (JInt 7).
  split; [reflexivity|]. split; [reflexivity|]. intros t Ht. discriminate.
Defined.

Lemma cached_answers_are_permanent_witness :
  let s := snd (is_whitelisted "alice" (init ∅)) in
  cache s !! answer_key "alice" = Some (JBool false) /\
  fst (is_whitelisted "alice"
         (@run AsciiLower [Add_to_whitelist "alice"; Get_events] s)) = Ok (JBool false).
Proof.
  intros s.
  assert (cache s !! answer_key "alice" = Some (JBool false)) as Hc by (by vm_compute).
  split; [exact Hc|].
  destruct (@cached_answers_are_permanent AsciiLower s "alice" (JBool false)
              [Add_to_whitelist "alice"; Get_events] Hc) as [_ Hw].
  exact Hw.
Defined.

(** X20.  When the events file cannot be used, the last step of the
    event conversation raises before anything is sent or stored: the
    session keeps its state and its data, so the date can be sent
    again once the file is back. *)
Theorem failed_commit_keeps_session now message state user w :
  from_user message = Some user ->
  (fs (db w) !! events_file = None \/ fs (db w) !! events_file = Some Garbage) ->
  process_event_date now message state w = (Raise (KeyError "events"), w).
Proof.
  intros Hu Hf. unfold process_event_date, get_data.
  unfold mbind at 1. unfold M_bind at 1. rewrite Hu.
  unfold mbind at 1. unfold M_bind at 1. unfold with_db.
  assert (forall e, add_event e now (db w) = (Raise (KeyError "events"), db w)) as ->.
  { intros e. unfold add_event. mrun. by destruct Hf as [-> | ->]. }
  by destruct w.
Qed.

Lemma failed_commit_keeps_session_witness :
  let w := {| db := init {[ events_file := Garbage ]};
              storage := {[ alice_chat :=
                {| current_state := Some EventStates_waiting_for_date;
                   scratch := [("title", JStr "Meetup")] |} ]};
              sent := [] |} in
  from_user (says alice "01.01.2030") = Some alice /\
  (fs (db w) !! events_file = None \/ fs (db w) !! events_file = Some Garbage) /\
  process_event_date "t1" (says alice "01.01.2030") alice_chat w
    = (Raise (KeyError "events"), w).
Proof.
  intros w.
  assert (fs (db w) !! events_file = None \/ fs (db w) !! events_file = Some Garbage)
    as Hf by (right; by vm_compute).
  split; [reflexivity|]. split; [exact Hf|].
  exact (failed_commit_keeps_session "t1" (says alice "01.01.2030") alice_chat alice w
           eq_refl Hf).
Defined.

(** * The guard on a store in use *)

Section Guard.
Context `{StrLower}.



End Guard.


(** * Appending over a reused id *)

(** C6, at the failing input.  Two events are added, the first is
    deleted, and an event is appended to the one-record collection that
    is left.  [add_event] returns "2", the id the older record carries:
    the list [get_events] then returns holds two records with the
    returned id, and when the appended fields and the clock reading are
    those of the older record, the appended record itself is listed
    twice. *)
Theorem appended_record_listed_twice :
  let s1 := snd (add_event [("title", JStr "a")] "t1" (init ∅)) in
  let s2 := snd (add_event [("title", JStr "b")] "t2" s1) in
  let s3 := snd (delete_event "1" s2) in
  let b := JDict [("title", JStr "b"); ("id", JStr "2"); ("created_at", JStr "t2")] in
  let c := JDict [("title", JStr "c"); ("id", JStr "2"); ("created_at", JStr "t3")] in
  stored_events s3 = Some [b] /\
  (let '(r, s4) := add_event [("title", JStr "c")] "t3" s3 in
   r = Ok "2" /\
   fst (get_events s4) = Ok (JList [b; c]) /\
   List.filter (carries "2") [b; c] = [b; c]) /\
  (let '(r, s4) := add_event [("title", JStr "b")] "t2" s3 in
   r = Ok "2" /\
   fst (get_events s4) = Ok (JList [b; b])).
Proof. vm_compute. done. Qed.
